(** * goc: workspace build driver and agent-listing client

  A shallow embedding of [pkg/build/build.go] and [pkg/client/client.go].

  Go strings are byte sequences and are modelled by [string] (a list of
  [ascii] bytes).  Go's [int] is taken to be 64 bits wide; arithmetic on it
  wraps, as the language defines.  Effects (logging, the process
  environment, spawned commands, HTTP exchanges, the terminal) are threaded
  through an explicit world, and [log.Fatalf] ends the computation with a
  process exit. *)

From Stdlib Require Import ZArith List String Ascii Bool Lia.
Import ListNotations.
Open Scope list_scope.
Open Scope string_scope.

(** ** The parts of Go's standard library the two packages call *)

Module golib.

(** *** [int] *)

Definition maxInt : Z := 9223372036854775807.
Definition minInt : Z := -9223372036854775808.

Definition isInt (z : Z) : Prop := (minInt <= z <= maxInt)%Z.

(** Two's-complement wrap-around of a mathematical integer to [int]. *)
Definition wrapInt (z : Z) : Z :=
  ((z - minInt) mod 18446744073709551616 + minInt)%Z.

Definition addInt (a b : Z) : Z := wrapInt (a + b).
Definition subInt (a b : Z) : Z := wrapInt (a - b).

(** [len(s)]: a Go string never holds more than [maxInt] bytes. *)
Definition len (s : string) : Z := Z.of_nat (String.length s).

(** [s[:n]]; [None] is the run-time panic "slice bounds out of range". *)
Fixpoint firstn_string (n : nat) (s : string) : string :=
  match n, s with
  | S k, String c r => String c (firstn_string k r)
  | _, _ => ""
  end.

Definition sliceTo (s : string) (n : Z) : option string :=
  if ((0 <=? n) && (n <=? len s))%Z
  then Some (firstn_string (Z.to_nat n) s)
  else None.

(** *** [strings] *)

(** [strings.Join(elems, sep)]. *)
Fixpoint strings_Join (elems : list string) (sep : string) : string :=
  match elems with
  | [] => ""
  | [e] => e
  | e :: rest => e ++ sep ++ strings_Join rest sep
  end.

(** [strings.ReplaceAll(s, old, new)] for one-byte [old] and [new], the
    only way the build package calls it. *)
Fixpoint ReplaceAll (s : string) (old new : ascii) : string :=
  match s with
  | "" => ""
  | String c r =>
      String (if Ascii.eqb c old then new else c) (ReplaceAll r old new)
  end.

(** *** [path/filepath], Unix flavour *)

Definition Separator : ascii := "/"%char.

Definition IsPathSeparator (c : ascii) : bool := Ascii.eqb c Separator.

(** [filepath.Split]: cut immediately after the final separator. *)
Fixpoint Split (path : string) : string * string :=
  match path with
  | "" => ("", "")
  | String c rest =>
      let (dir, file) := Split rest in
      match dir with
      | "" => if IsPathSeparator c then (String c "", file)
              else ("", String c file)
      | _ => (String c dir, file)
      end
  end.

(** The elements of a path: the pieces between separators. *)
Fixpoint elements (path : string) : list string :=
  match path with
  | "" => [""]
  | String c rest =>
      if IsPathSeparator c then "" :: elements rest
      else match elements rest with
           | e :: es => String c e :: es
           | [] => [String c ""]
           end
  end.

(** One round of the loop of [filepath.Clean]; [out] holds the elements
    written so far, the latest first.  Empty and [.] elements are dropped,
    [..] removes the latest element when there is one to remove, is dropped
    at the root, and is kept in a leading run of [..] otherwise. *)
Definition cleanStep (rooted : bool) (out : list string) (e : string)
  : list string :=
  if (e =? "") || (e =? ".") then out
  else if e =? ".." then
    match out with
    | top :: below => if top =? ".." then e :: out else below
    | [] => if rooted then out else [e]
    end
  else e :: out.

Definition Clean (path : string) : string :=
  match path with
  | "" => "."
  | String c _ =>
      let rooted := IsPathSeparator c in
      let out := fold_left (cleanStep rooted) (elements path) [] in
      let body := strings_Join (rev out) "/" in
      if rooted then "/" ++ body
      else if body =? "" then "." else body
  end.

(** [filepath.Join]: leading empty elements are skipped, the rest is joined
    with separators and cleaned. *)
Fixpoint Join (elem : list string) : string :=
  match elem with
  | [] => ""
  | e :: rest =>
      if e =? "" then Join rest else Clean (strings_Join elem "/")
  end.

Definition IsAbs (path : string) : bool :=
  match path with
  | String c _ => IsPathSeparator c
  | "" => false
  end.

(** *** Computations

    A computation runs in a world [W] and ends with a result, with the
    process exiting ([os.Exit], reached through [log.Fatalf]), or with a
    run-time panic. *)

Inductive Outcome (A : Type) : Type :=
| Ret (a : A)
| Exit (code : Z)
| Panic (msg : string).
Arguments Ret {A} a.
Arguments Exit {A} code.
Arguments Panic {A} msg.

Definition M (W A : Type) : Type := W -> Outcome A * W.

Definition ret {W A} (a : A) : M W A := fun w => (Ret a, w).

Definition bind {W A B} (m : M W A) (k : A -> M W B) : M W B :=
  fun w =>
    match m w with
    | (Ret a, w') => k a w'
    | (Exit code, w') => (Exit code, w')
    | (Panic msg, w') => (Panic msg, w')
    end.

Notation "x <- m ;; k" := (bind m (fun x => k))
  (at level 61, m at next level, right associativity).
Notation "m ;; k" := (bind m (fun _ => k))
  (at level 61, right associativity).

End golib.

(** ** Package [build] *)

Module build.
Import golib.

(** *** Errors *)

(** A value printed by a format verb. *)
Inductive arg : Type :=
| AStr (s : string)
| AStrs (ss : list string).

(** Modelled from the spec: [ErrWrongPackageTypeForBuild] and
    [ErrWrongCallSequence] are declared in another file of the package; the
    spec lists them as two distinct errors, [InvalidPackageSpec] for a
    specifier other than [.] and [CallSequenceViolation] for a path resolved
    before relocation.  [OSError] stands for an error handed back by [os] or
    [os/exec]; [Errorf] is [fmt.Errorf] with a trailing [%w]. *)
Inductive error : Type :=
| ErrWrongPackageTypeForBuild
| ErrWrongCallSequence
| OSError (msg : string)
| Errorf (format : string) (args : list arg) (wrapped : error).

(** The innermost error of a [%w] chain, what [errors.Is] finally meets. *)
Fixpoint cause (e : error) : error :=
  match e with
  | Errorf _ _ wrapped => cause wrapped
  | _ => e
  end.

(** *** The world outside the descriptor *)

Inductive level : Type := InfoLevel | ErrorLevel | FatalLevel.

Inductive logArg : Type :=
| LArg (a : arg)
| LErr (e : error).

Record logEntry : Type := mkLog
  { entryLevel : level; entryFormat : string; entryArgs : list logArg }.

Inductive stream : Type := Discard | OsStdout | OsStderr.

(** [exec.Cmd]; an [Env] of [None] is Go's nil slice. *)
Record Cmd : Type := mkCmd
  { Path : string;
    Args : list string;
    Dir : string;
    Env : option (list string);
    Stdout : stream;
    Stderr : stream }.

(** [exec.Command(name, arg...)] for a name that holds a separator. *)
Definition Command (name : string) (args : list string) : Cmd :=
  mkCmd name (name :: args) "" None Discard Discard.

Record World : Type := mkWorld
  { environ : list string;            (* os.Environ() of this process *)
    getwd : string * option error;    (* what os.Getwd() answers *)
    startAnswer : Cmd -> option error; (* what cmd.Start() answers *)
    waitAnswer : Cmd -> option error;  (* what cmd.Wait() answers *)
    started : list Cmd;               (* commands given to Start, in order *)
    logs : list logEntry }.           (* log lines written, in order *)

(** The environment a started command runs in: its own [Env], or the
    parent's environment when [Env] is nil. *)
Definition childEnviron (w : World) (c : Cmd) : list string :=
  match Env c with
  | Some env => env
  | None => environ w
  end.

(** The name of an entry [NAME=value] and its value. *)
Fixpoint entryKey (kv : string) : string :=
  match kv with
  | "" => ""
  | String c r => if Ascii.eqb c "="%char then "" else String c (entryKey r)
  end.

Fixpoint entryValue (kv : string) : string :=
  match kv with
  | "" => ""
  | String c r => if Ascii.eqb c "="%char then r else entryValue r
  end.

(** The value a process sees for a variable: of several entries with the
    same name the last one counts. *)
Fixpoint lookupEnv (env : list string) (key : string) : option string :=
  match env with
  | [] => None
  | kv :: rest =>
      match lookupEnv rest key with
      | Some v => Some v
      | None => if entryKey kv =? key then Some (entryValue kv) else None
      end
  end.

(** *** Computations over this world *)

Definition M (A : Type) : Type := golib.M World A.

Definition addLog (e : logEntry) (w : World) : World :=
  mkWorld (environ w) (getwd w) (startAnswer w) (waitAnswer w)
          (started w) (logs w ++ [e])%list.

Definition addStarted (c : Cmd) (w : World) : World :=
  mkWorld (environ w) (getwd w) (startAnswer w) (waitAnswer w)
          (started w ++ [c])%list (logs w).

Definition logf (l : level) (format : string) (args : list logArg)
  : M unit :=
  fun w => (Ret tt, addLog (mkLog l format args) w).

(** [log.Fatalf]: write the line, then [os.Exit(1)]. *)
Definition Fatalf {A} (format : string) (args : list logArg) : M A :=
  fun w => (Exit 1%Z, addLog (mkLog FatalLevel format args) w).

Definition Getwd : M (string * option error) := fun w => (Ret (getwd w), w).

Definition Environ : M (list string) := fun w => (Ret (environ w), w).

Definition Start (c : Cmd) : M (option error) :=
  fun w => (Ret (startAnswer w c), addStarted c w).

Definition Wait (c : Cmd) : M (option error) :=
  fun w => (Ret (waitAnswer w c), w).

(** [filepath.Abs]. *)
Definition Abs (path : string) : M (string * option error) :=
  if IsAbs path then ret (Clean path, None)
  else
    r <- Getwd ;;
    match r with
    | (_, Some err) => ret ("", Some err)
    | (wd, None) => ret (Join [wd; path], None)
    end.

(** *** The descriptor *)

(** Modelled from the spec: [cover.Package] is declared in [pkg/cover],
    outside the files at hand; the spec describes it as package metadata
    carrying the file list. *)
Record Package : Type := mkPackage { GoFiles : list string }.

Record Build : Type := mkBuild
  { Pkgs : list (string * Package);
    NewGOPATH : string;
    OriGOPATH : string;
    TmpDir : string;
    TmpWorkingDir : string;
    IsMod : bool;
    Root : string;
    Target : string;
    BuildFlags : string;
    Packages : string;
    GoRunExecFlag : string;
    GoRunArguments : string }.

Definition setTarget (t : string) (b : Build) : Build :=
  mkBuild (Pkgs b) (NewGOPATH b) (OriGOPATH b) (TmpDir b) (TmpWorkingDir b)
          (IsMod b) (Root b) t (BuildFlags b) (Packages b)
          (GoRunExecFlag b) (GoRunArguments b).

Definition setBuildFlags (f : string) (b : Build) : Build :=
  mkBuild (Pkgs b) (NewGOPATH b) (OriGOPATH b) (TmpDir b) (TmpWorkingDir b)
          (IsMod b) (Root b) (Target b) f (Packages b)
          (GoRunExecFlag b) (GoRunArguments b).

(** [validatePackageForBuild] only allows [.] as package name. *)
Definition validatePackageForBuild (b : Build) : bool :=
  if Packages b =? "." then true else false.

Definition determineOutputDir (b : Build) (outputDir : string)
  : M (string * option error) :=
  if TmpDir b =? "" then
    logf ErrorLevel "Can only be called after Build.MvProjectsToTmp(): %v"
         [LErr ErrWrongCallSequence] ;;
    ret ("", Some (Errorf "can only be called after Build.MvProjectsToTmp(): %w"
                          [] ErrWrongCallSequence))
  else
    r <- Getwd ;;
    match r with
    | (_, Some err) =>
        logf ErrorLevel "Cannot get current working directory: %v"
             [LErr err] ;;
        ret ("", Some (Errorf "cannot get current working directory: %w"
                              [] err))
    | (curWorkingDir, None) =>
        if outputDir =? "" then
          let last := snd (Split curWorkingDir) in
          let last := if IsMod b then ReplaceAll last "_" "-" else last in
          ret (Join [curWorkingDir; last], None)
        else
          a <- Abs outputDir ;;
          match a with
          | (_, Some err) =>
              logf ErrorLevel
                   "Fail to transform the path: %v to absolute path: %v"
                   [LArg (AStr outputDir); LErr err] ;;
              ret ("", Some (Errorf
                     "fail to transform the path %v to absolute path: %w"
                     [AStr outputDir] err))
          | (abs, None) => ret (abs, None)
          end
    end.

(** The environment rule shared by [Build] and [Run]. *)
Definition withGOPATH (b : Build) (cmd : Cmd) : M Cmd :=
  if NewGOPATH b =? "" then ret cmd
  else
    env <- Environ ;;
    ret (mkCmd (Path cmd) (Args cmd) (Dir cmd)
               (Some (env ++ [("GOPATH=" ++ NewGOPATH b)%string])%list)
               (Stdout cmd) (Stderr cmd)).

(** The method [Build]; the descriptor is updated in place, so the updated
    descriptor is handed back beside the error. *)
Definition Build_Build (b : Build) : M (Build * option error) :=
  logf InfoLevel "Go building in temp..." [] ;;
  let b := setBuildFlags (BuildFlags b ++ " -o " ++ Target b) b in
  let cmd := Command "/bin/bash"
               ["-c"; "go build " ++ BuildFlags b ++ " " ++ Packages b] in
  let cmd := mkCmd (Path cmd) (Args cmd) (TmpWorkingDir b) (Env cmd)
                   OsStdout OsStderr in
  cmd <- withGOPATH b cmd ;;
  logf InfoLevel "go build cmd is: %v" [LArg (AStrs (Args cmd))] ;;
  err <- Start cmd ;;
  match err with
  | Some err =>
      logf ErrorLevel "Fail to execute: %v. The error is: %v"
           [LArg (AStrs (Args cmd)); LErr err] ;;
      ret (b, Some (Errorf "fail to execute: %v: %w"
                           [AStrs (Args cmd)] err))
  | None =>
      err <- Wait cmd ;;
      match err with
      | Some err =>
          logf ErrorLevel "go build failed. The error is: %v" [LErr err] ;;
          ret (b, Some (Errorf "go build faileds: %w" [] err))
      | None =>
          logf InfoLevel "Go build exit successful." [] ;;
          ret (b, None)
      end
  end.

(** [Run] has no result; a failure ends the process. *)
Definition Run (b : Build) : M unit :=
  let cmd := Command "/bin/bash"
               ["-c"; "go run " ++ BuildFlags b ++ " " ++ GoRunExecFlag b
                        ++ " " ++ Packages b ++ " " ++ GoRunArguments b] in
  let cmd := mkCmd (Path cmd) (Args cmd) (TmpWorkingDir b) (Env cmd)
                   (Stdout cmd) (Stderr cmd) in
  cmd <- withGOPATH b cmd ;;
  logf InfoLevel "go build cmd is: %v" [LArg (AStrs (Args cmd))] ;;
  let cmd := mkCmd (Path cmd) (Args cmd) (Dir cmd) (Env cmd)
                   OsStdout OsStderr in
  err <- Start cmd ;;
  match err with
  | Some err =>
      Fatalf "Fail to start command: %v. The error is: %v"
             [LArg (AStrs (Args cmd)); LErr err]
  | None =>
      err <- Wait cmd ;;
      match err with
      | Some err =>
          Fatalf "Fail to execute command: %v. The error is: %v"
                 [LArg (AStrs (Args cmd)); LErr err]
      | None => ret tt
      end
  end.

Section Construction.

(** [MvProjectsToTmp] lives in another file of the package.  It fills in
    the workspace fields of the descriptor and works on the file system;
    here it is any computation that hands back the updated descriptor. *)
Variable MvProjectsToTmp : Build -> M Build.

Definition NewBuild (buildflags packages outputDir : string)
  : M (option Build * option error) :=
  let b := mkBuild [] "" "" "" "" false "" "" buildflags packages "" "" in
  if negb (validatePackageForBuild b) then
    logf ErrorLevel "%v" [LErr ErrWrongPackageTypeForBuild] ;;
    ret (None, Some ErrWrongPackageTypeForBuild)
  else
    b <- MvProjectsToTmp b ;;
    r <- determineOutputDir b outputDir ;;
    let b := setTarget (fst r) b in
    match snd r with
    | Some err => ret (None, Some err)
    | None => ret (Some b, None)
    end.

End Construction.

End build.

(** ** Package [client] *)

Module client.
Import golib.

Definition CoverAgentsListAPI : string := "/v2/rpcagents".

(** *** Errors *)

(** [EOF] is [io.EOF]; [NetError] is any error whose dynamic type
    implements [net.Error]; [OtherError] is any error that does neither;
    [Errorf] is [fmt.Errorf] with its [%v] operand. *)
Inductive error : Type :=
| EOF
| NetError (msg : string)
| OtherError (msg : string)
| Errorf (format : string) (operand : error).

(** The type assertion [err.(net.Error)]. *)
Definition assertNetError (err : error) : bool :=
  match err with
  | NetError _ => true
  | _ => false
  end.

Definition isEOF (err : error) : bool :=
  match err with
  | EOF => true
  | _ => false
  end.

Definition isNetworkError (err : error) : bool :=
  if isEOF err then true else assertNetError err.

(** *** Data *)

Record gocCoveredAgent : Type := mkAgent
  { Id : string;
    RemoteIP : string;
    Hostname : string;
    CmdLine : string;
    Pid : string }.

Record gocListAgents : Type := mkList { Items : list gocCoveredAgent }.

Record client : Type := mkClient { Host : string }.

Record Request : Type := mkRequest
  { Method : string;
    URL : string;
    ContentType : option string;
    Body : option string }.

Record Response : Type := mkResponse { StatusCode : Z }.

(** How one call of [do] goes: the request cannot be built, the round trip
    fails, the body cannot be read, or the body arrives. *)
Inductive exchange : Type :=
| NewRequestFails (err : error)
| DoFails (err : error)
| ReadAllFails (res : Response) (err : error)
| Responds (res : Response) (body : string).

Inductive alignment : Type :=
| ALIGN_DEFAULT | ALIGN_CENTER | ALIGN_RIGHT | ALIGN_LEFT.

(** What [tablewriter] is told before it renders. *)
Record Table : Type := mkTable
  { centerSeparator : string;
    columnSeparator : string;
    rowSeparator : string;
    headerLine : bool;
    border : bool;
    tablePadding : string;
    noWhiteSpace : bool;
    reflowDuringAutoWrap : bool;
    headerAlignment : alignment;
    autoWrapText : bool;
    header : list string;
    columnAlignment : list alignment;
    rows : list (list string) }.

(** A format string handed to a printf-style function: a literal of the
    source, or the text [err.Error()] of an error. *)
Inductive format : Type :=
| Literal (text : string)
| ErrorText (err : error).

(** An operand handed along with a format string. *)
Inductive operand : Type :=
| OStr (s : string)
| OErr (err : error).

(** One call of [log.Fatalf]: its format string and its operands. *)
Record fatalCall : Type := mkFatal
  { fatalFormat : format; fatalOperands : list operand }.

Record World : Type := mkWorld
  { answers : nat -> exchange;     (* how the n-th call of [do] goes *)
    attempts : list Request;       (* the calls of [do] made, in order *)
    termSize : option (Z * Z);     (* term.GetSize; [None] is an error *)
    stdout : list Table;           (* tables rendered *)
    fatal : list fatalCall;        (* the calls of log.Fatalf, in order *)
    fatalStatus : Z }.             (* the status log.Fatalf exits with *)

Definition M (A : Type) : Type := golib.M World A.

(** Modelled from the spec: [log.Fatalf] belongs to the package
    [goc/v2/pkg/log], which is not among the files at hand.  The spec says
    of the listing client that it terminates the process with an error
    message, and gives no exit status: the call is recorded with its format
    string and operands as the source hands them over, and the process
    exits with the status the world holds for it. *)
Definition Fatalf {A} (f : format) (operands : list operand) : M A :=
  fun w => (Exit (fatalStatus w),
            mkWorld (answers w) (attempts w) (termSize w) (stdout w)
                    (fatal w ++ [mkFatal f operands])%list (fatalStatus w)).

Definition GetSize : M (option (Z * Z)) := fun w => (Ret (termSize w), w).

Definition Render (t : Table) : M unit :=
  fun w => (Ret tt,
            mkWorld (answers w) (attempts w) (termSize w)
                    (stdout w ++ [t])%list (fatal w) (fatalStatus w)).

(** A slice expression in a computation. *)
Definition slice (s : string) (n : Z) : M string :=
  match sliceTo s n with
  | Some r => ret r
  | None => fun w => (Panic "slice bounds out of range", w)
  end.

(** [do]: one HTTP exchange, its three results being the response, the
    body and the error. *)
Definition do (c : client) (method url contentType : string)
           (body : option string)
  : M (option Response * option string * option error) :=
  fun w =>
    let req := mkRequest method url
                 (if contentType =? "" then None else Some contentType)
                 body in
    let w' := mkWorld (answers w) (attempts w ++ [req])%list (termSize w)
                      (stdout w) (fatal w) (fatalStatus w) in
    match answers w (List.length (attempts w)) with
    | NewRequestFails err => (Ret (None, None, Some err), w')
    | DoFails err => (Ret (None, None, Some err), w')
    | ReadAllFails res err => (Ret (Some res, None, Some err), w')
    | Responds res responseBody =>
        (Ret (Some res, Some responseBody, None), w')
    end.

Definition getSimpleCmdLine (preLen : Z) (cmdLine : string) : M string :=
  let pathLen := len cmdLine in
  size <- GetSize ;;
  let width :=
    match size with
    | None => addInt 16 preLen
    | Some (width, _) =>
        if (width <=? addInt preLen 16)%Z then addInt 16 preLen else width
    end in
  if (pathLen >? subInt width preLen)%Z
  then slice cmdLine (subInt width preLen)
  else ret cmdLine.

(** The row of one agent. *)
Definition agentRow (wide : bool) (agent : gocCoveredAgent)
  : M (list string) :=
  if wide then
    ret [Id agent; RemoteIP agent; Hostname agent; Pid agent; CmdLine agent]
  else
    let preLen := addInt (addInt (len (Id agent)) (len (RemoteIP agent))) 9 in
    cmd <- getSimpleCmdLine preLen (CmdLine agent) ;;
    ret [Id agent; RemoteIP agent; cmd].

(** [table.Append(row)]. *)
Definition Append (table : Table) (row : list string) : Table :=
  mkTable (centerSeparator table) (columnSeparator table)
          (rowSeparator table) (headerLine table) (border table)
          (tablePadding table) (noWhiteSpace table)
          (reflowDuringAutoWrap table) (headerAlignment table)
          (autoWrapText table) (header table) (columnAlignment table)
          (rows table ++ [row])%list.

(** The loop over the agents: each row is appended to the table. *)
Fixpoint appendRows (wide : bool) (items : list gocCoveredAgent)
         (table : Table) : M Table :=
  match items with
  | [] => ret table
  | agent :: rest =>
      row <- agentRow wide agent ;;
      appendRows wide rest (Append table row)
  end.

Section Listing.

(** [json.Unmarshal] into a [gocListAgents]. *)
Variable Unmarshal : string -> gocListAgents * option error.

Definition ListAgents (c : client) (wide : bool) : M unit :=
  let u := Host c ++ CoverAgentsListAPI in
  r <- do c "GET" u "" None ;;
  r <- match snd r with
       | Some err => if isNetworkError err then do c "GET" u "" None
                     else ret r
       | None => ret r
       end ;;
  match r with
  | (_, _, Some err) =>
      Fatalf (ErrorText (Errorf "goc list failed: %v" err)) []
  | (_, body, None) =>
      match Unmarshal (match body with Some b => b | None => "" end) with
      | (_, Some err) =>
          Fatalf (ErrorText
                    (Errorf "goc list failed: json unmarshal failed: %v" err))
                 []
      | (agents, None) =>
          let table :=
            mkTable "" "" "" false false "   " true false ALIGN_LEFT
                    false
                    (if wide
                     then ["ID"; "REMOTEIP"; "HOSTNAME"; "PID"; "CMD"]
                     else ["ID"; "REMOTEIP"; "CMD"])
                    (if wide
                     then [ALIGN_LEFT; ALIGN_LEFT; ALIGN_LEFT;
                           ALIGN_LEFT; ALIGN_LEFT; ALIGN_LEFT]
                     else [ALIGN_LEFT; ALIGN_LEFT; ALIGN_LEFT])
                    [] in
          table <- appendRows wide (Items agents) table ;;
          Render table
      end
  end.

End Listing.

Section Worker.

(** [url.ParseRequestURI], of which only the error is looked at. *)
Variable ParseRequestURI : string -> option error.

(** [NewWorker]. *)
Definition NewWorker (host : string) : M client :=
  match ParseRequestURI host with
  | Some err =>
      Fatalf (Literal "parse url %s failed, err: %v") [OStr host; OErr err]
  | None => ret (mkClient host)
  end.

End Worker.

End client.

(** ** Vocabulary of the statements *)

Module paths.
Import golib.

(** An element without a separator. *)
Fixpoint hasSeparator (s : string) : bool :=
  match s with
  | "" => false
  | String c r => IsPathSeparator c || hasSeparator r
  end.

(** A plain element: a name, neither empty nor [.] nor [..]. *)
Definition plain (e : string) : bool :=
  negb (e =? "") && negb (e =? ".") && negb (e =? "..")
  && negb (hasSeparator e).

(** The clean absolute path with the given elements. *)
Definition absPath (es : list string) : string :=
  "/" ++ strings_Join es "/".

(** A byte as module naming wants it: a hyphen for an underscore, any
    other byte as it is. *)
Definition hyphenate (c : ascii) : ascii :=
  if Ascii.eqb c "_" then "-"%char else c.

(** Whether the byte [c] occurs in [s]. *)
Fixpoint occurs (c : ascii) (s : string) : bool :=
  match s with
  | "" => false
  | String x r => Ascii.eqb x c || occurs c r
  end.

End paths.

Module build_terms.
Import golib build.

(** A world with working directory [cwd] where every command runs well. *)
Definition quiet (cwd : string) : World :=
  mkWorld ["PATH=/usr/bin"; "GOPATH=/R"] (cwd, None)
          (fun _ => None) (fun _ => None) [] [].

(** A descriptor after relocation, of a module or of a legacy project. *)
Definition relocated (isMod : bool) : Build :=
  mkBuild [] (if isMod then "" else "/tmp/goc-build-1")
          (if isMod then "" else "/R") "/tmp/goc-build-1"
          "/tmp/goc-build-1/src/myapp" isMod "/R" "" "-v" "." "" "".

(** A relocation that only records the workspace in the descriptor. *)
Definition relocateAs (isMod : bool) (b : Build) : M Build :=
  ret (mkBuild (Pkgs b) (NewGOPATH b) (OriGOPATH b) "/tmp/goc-build-1"
               "/tmp/goc-build-1" isMod (Root b) (Target b) (BuildFlags b)
               (Packages b) (GoRunExecFlag b) (GoRunArguments b)).

(** The default name: the last segment of the working directory, with [_]
    turned into [-] in a module project. *)
Definition defaultName (b : Build) (curWorkingDir : string) : string :=
  let last := snd (Split curWorkingDir) in
  if IsMod b then ReplaceAll last "_" "-" else last.

(** The descriptor as [NewBuild] first makes it. *)
Definition fresh (buildflags packages : string) : Build :=
  mkBuild [] "" "" "" "" false "" "" buildflags packages "" "".

(** [cmd.Env] as both operations set it. *)
Definition gopathEnv (b : Build) (w : World) : option (list string) :=
  if NewGOPATH b =? "" then None
  else Some (environ w ++ [("GOPATH=" ++ NewGOPATH b)%string])%list.

Definition buildCmd (b : Build) (w : World) : Cmd :=
  mkCmd "/bin/bash"
        ["/bin/bash"; "-c";
         "go build " ++ (BuildFlags b ++ " -o " ++ Target b)
                     ++ " " ++ Packages b]
        (TmpWorkingDir b) (gopathEnv b w) OsStdout OsStderr.

Definition runCmd (b : Build) (w : World) : Cmd :=
  mkCmd "/bin/bash"
        ["/bin/bash"; "-c";
         "go run " ++ BuildFlags b ++ " " ++ GoRunExecFlag b
                   ++ " " ++ Packages b ++ " " ++ GoRunArguments b]
        (TmpWorkingDir b) (gopathEnv b w) OsStdout OsStderr.

(** The parts of the world a computation leaves alone. *)
Definition sameSurroundings (w w1 : World) : Prop :=
  environ w1 = environ w /\ getwd w1 = getwd w
  /\ startAnswer w1 = startAnswer w /\ waitAnswer w1 = waitAnswer w.

(** The child sees [GOPATH] as [newRoot] and every other variable as the
    parent has it. *)
Definition overridesGOPATH (parent child : list string) (newRoot : string)
  : Prop :=
  lookupEnv child "GOPATH" = Some newRoot
  /\ forall key : string,
       key <> "GOPATH" -> lookupEnv child key = lookupEnv parent key.

(** The environment rule for a command [cmd] started by a descriptor [b]
    in a parent whose environment was [w] and has become [w1]. *)
Definition environmentRule (b : Build) (w w1 : World) (cmd : Cmd) : Prop :=
  environ w1 = environ w
  /\ (NewGOPATH b = "" ->
        Env cmd = None /\ childEnviron w1 cmd = environ w)
  /\ (NewGOPATH b <> "" ->
        childEnviron w1 cmd
          = (environ w ++ [("GOPATH=" ++ NewGOPATH b)%string])%list
        /\ overridesGOPATH (environ w) (childEnviron w1 cmd) (NewGOPATH b)).

(** A world in which no command can be started, and one in which every
    command starts and then fails. *)
Definition noStart : World :=
  mkWorld ["PATH=/usr/bin"] ("/R/src/myapp", None)
          (fun _ => Some (OSError "fork/exec /bin/bash: no such file"))
          (fun _ => None) [] [].

Definition badExit : World :=
  mkWorld ["PATH=/usr/bin"] ("/R/src/myapp", None)
          (fun _ => None) (fun _ => Some (OSError "exit status 2")) [] [].

(** [n] calls of [Build] in a row on the same descriptor. *)
Fixpoint buildTimes (n : nat) (b : Build) : M Build :=
  match n with
  | O => ret b
  | S k => r <- Build_Build b ;; buildTimes k (fst r)
  end.

(** [n] output flags for the same target. *)
Fixpoint outputFlags (n : nat) (target : string) : string :=
  match n with
  | O => ""
  | S k => " -o " ++ target ++ outputFlags k target
  end.

(** A world whose working directory cannot be obtained. *)
Definition lost : World :=
  mkWorld ["PATH=/usr/bin"] ("", Some (OSError "getwd: no such file or directory"))
          (fun _ => None) (fun _ => None) [] [].

End build_terms.

Module client_terms.
Import golib client.
Open Scope Z_scope.

(** The terminal reports a width that is an [int]. *)
Definition sizeIsInt (w : World) : Prop :=
  forall width height, termSize w = Some (width, height) -> isInt width.

(** The number of bytes of the command that are let through. *)
Definition clipWidth (size : option (Z * Z)) (preLen : Z) : Z :=
  match size with
  | None => 16
  | Some (width, _) => if width <=? preLen + 16 then 16 else width - preLen
  end.

(** A world with the given terminal size and a server that answers, in a
    process whose [log.Fatalf] exits with status 1. *)
Definition terminal (size : option (Z * Z)) : World :=
  mkWorld (fun _ => Responds (mkResponse 200) "{}") [] size [] [] 1.

Definition prefixLen (agent : gocCoveredAgent) : Z :=
  len (Id agent) + len (RemoteIP agent) + 9.

(** The prefix length and the 16 bytes beyond it fit an [int]. *)
Definition fitsInt (agent : gocCoveredAgent) : Prop :=
  prefixLen agent <= maxInt - 16.

Definition narrowRow (size : option (Z * Z)) (agent : gocCoveredAgent)
  : list string :=
  [Id agent; RemoteIP agent;
   firstn_string (Z.to_nat (clipWidth size (prefixLen agent)))
                 (CmdLine agent)].

Definition setRows (table : Table) (rs : list (list string)) : Table :=
  mkTable (centerSeparator table) (columnSeparator table)
          (rowSeparator table) (headerLine table) (border table)
          (tablePadding table) (noWhiteSpace table)
          (reflowDuringAutoWrap table) (headerAlignment table)
          (autoWrapText table) (header table) (columnAlignment table) rs.

(** What a narrow row must look like. *)
Definition narrowRowFits (size : option (Z * Z)) (agent : gocCoveredAgent)
           (row : list string) : Prop :=
  exists shown : string,
    row = [Id agent; RemoteIP agent; shown]
    /\ prefix shown (CmdLine agent) = true
    /\ match size with
       | None => len shown <= 16
       | Some (width, _) =>
           len shown <= Z.max 16 (width - prefixLen agent)
           /\ (prefixLen agent + 16 < width ->
               len shown <= width - prefixLen agent)
           /\ (width <= prefixLen agent + 16 -> len shown <= 16)
       end.

(** The request [ListAgents] makes. *)
Definition get (c : client) : Request :=
  mkRequest "GET" (Host c ++ CoverAgentsListAPI) None None.

(** Scenario 5: one agent with a long command line. *)
Definition agent1 : gocCoveredAgent :=
  mkAgent "1" "10.0.0.1" "h1" "/bin/foo --flag=verylongvalue" "99".

Definition decodeAgent1 (body : string) : gocListAgents * option error :=
  (mkList [agent1], None).

(** The error of an exchange that failed. *)
Definition failure (x : exchange) : option error :=
  match x with
  | NewRequestFails err => Some err
  | DoFails err => Some err
  | ReadAllFails _ err => Some err
  | Responds _ _ => None
  end.

(** The three results [do] hands back for an exchange. *)
Definition results (x : exchange)
  : option Response * option string * option error :=
  match x with
  | NewRequestFails err => (None, None, Some err)
  | DoFails err => (None, None, Some err)
  | ReadAllFails res err => (Some res, None, Some err)
  | Responds res body => (Some res, Some body, None)
  end.

(** The exchange whose results [ListAgents] goes on with: the first one,
    or the second one when the first failed with a network error. *)
Definition lastExchange (w : World) : exchange :=
  let first := answers w (List.length (attempts w)) in
  match failure first with
  | Some err =>
      if isNetworkError err then answers w (S (List.length (attempts w)))
      else first
  | None => first
  end.

(** The world after [n] more calls of [do]. *)
Definition afterGets (c : client) (n : nat) (w : World) : World :=
  mkWorld (answers w) (attempts w ++ repeat (get c) n)%list (termSize w)
          (stdout w) (fatal w) (fatalStatus w).

(** What [ListAgents] does with the outcome of its exchange. *)
Definition present (Unmarshal : string -> gocListAgents * option error)
           (wide : bool)
           (r : option Response * option string * option error) : M unit :=
  match r with
  | (_, _, Some err) =>
      Fatalf (ErrorText (Errorf "goc list failed: %v" err)) []
  | (_, body, None) =>
      match Unmarshal (match body with Some b => b | None => "" end) with
      | (_, Some err) =>
          Fatalf (ErrorText
                    (Errorf "goc list failed: json unmarshal failed: %v" err))
                 []
      | (agents, None) =>
          let table :=
            mkTable "" "" "" false false "   " true false ALIGN_LEFT
                    false
                    (if wide
                     then ["ID"; "REMOTEIP"; "HOSTNAME"; "PID"; "CMD"]
                     else ["ID"; "REMOTEIP"; "CMD"])
                    (if wide
                     then [ALIGN_LEFT; ALIGN_LEFT; ALIGN_LEFT;
                           ALIGN_LEFT; ALIGN_LEFT; ALIGN_LEFT]
                     else [ALIGN_LEFT; ALIGN_LEFT; ALIGN_LEFT])
                    [] in
          table <- appendRows wide (Items agents) table ;;
          Render table
      end
  end.

(** A server whose first response breaks off while the body is read, the
    connection being reset, and which answers properly afterwards. *)
Definition resetWhileReading : World :=
  mkWorld (fun n => match n with
                    | O => ReadAllFails (mkResponse 200)
                             (NetError "read: connection reset by peer")
                    | _ => Responds (mkResponse 200) "{}"
                    end)
          [] None [] [] 1.

(** The row of an agent in wide mode. *)
Definition wideRow (agent : gocCoveredAgent) : list string :=
  [Id agent; RemoteIP agent; Hostname agent; Pid agent; CmdLine agent].

(** A worker is made for [host], then asked for the listing. *)
Definition listFrom (ParseRequestURI : string -> option error)
           (Unmarshal : string -> gocListAgents * option error)
           (host : string) (wide : bool) : M unit :=
  c <- NewWorker ParseRequestURI host ;; ListAgents Unmarshal c wide.

(** A server that is never reached, in a process whose [log.Fatalf] exits
    with status 3. *)
Definition unreachable : World :=
  mkWorld (fun _ => DoFails (NetError "dial tcp: connection refused"))
          [] (Some (80, 24)) [] [] 3.

(** A decoder that rejects every body. *)
Definition decodeNothing (body : string) : gocListAgents * option error :=
  (mkList [], Some (OtherError "unexpected end of JSON input")).

(** A parser that accepts the hosts starting with [http]. *)
Definition parseHTTP (host : string) : option error :=
  if prefix "http" host then None
  else Some (OtherError "invalid URI for request").

End client_terms.

(** ** Facts about the library functions *)

Module golib_facts.
Import golib paths.

Lemma append_assoc (a b c : string) : (a ++ b) ++ c = a ++ b ++ c.
Proof. induction a as [|x a IH]; simpl; [reflexivity | now rewrite IH]. Qed.

Lemma append_nil_r (a : string) : a ++ "" = a.
Proof. induction a as [|x a IH]; simpl; [reflexivity | now rewrite IH]. Qed.

Lemma length_append (a b : string) :
  String.length (a ++ b) = String.length a + String.length b.
Proof. induction a as [|x a IH]; simpl; [reflexivity | now rewrite IH]. Qed.

Lemma hasSeparator_app (a b : string) :
  hasSeparator (a ++ b) = hasSeparator a || hasSeparator b.
Proof.
  induction a as [|x a IH]; simpl; [reflexivity|].
  now rewrite IH, orb_assoc.
Qed.

(** [Split] cuts the path in two, the second part holds no separator and
    the first part is empty or ends with one. *)
Lemma Split_append (path : string) :
  fst (Split path) ++ snd (Split path) = path.
Proof.
  induction path as [|c rest IH]; simpl; [reflexivity|].
  destruct (Split rest) as [dir file]; simpl in *.
  destruct dir as [|d dir].
  - simpl in IH; subst file.
    destruct (IsPathSeparator c); reflexivity.
  - simpl in *. now rewrite IH.
Qed.

Lemma Split_file_no_separator (path : string) :
  hasSeparator (snd (Split path)) = false.
Proof.
  induction path as [|c rest IH]; simpl; [reflexivity|].
  destruct (Split rest) as [dir file]; simpl in *.
  destruct dir as [|d dir]; [|exact IH].
  destruct (IsPathSeparator c) eqn:E; simpl; [exact IH|].
  now rewrite E, IH.
Qed.

Lemma Split_no_separator (name : string) :
  hasSeparator name = false -> Split name = ("", name).
Proof.
  induction name as [|c r IH]; simpl; [reflexivity|].
  intros H. apply orb_false_iff in H as [Hc Hr].
  now rewrite (IH Hr), Hc.
Qed.

Lemma Split_dir_file (dir name : string) :
  hasSeparator name = false ->
  Split (dir ++ "/" ++ name) = (dir ++ "/", name).
Proof.
  intros H. induction dir as [|c r IH].
  - cbn [append Split]. now rewrite (Split_no_separator name H).
  - change (String c r ++ "/" ++ name) with (String c (r ++ "/" ++ name)).
    cbn [Split]. rewrite IH. destruct r; reflexivity.
Qed.

(** [ReplaceAll] keeps the length and leaves no [old] byte behind. *)
Lemma ReplaceAll_length (s : string) (old new : ascii) :
  String.length (ReplaceAll s old new) = String.length s.
Proof. induction s as [|c r IH]; simpl; [reflexivity | now rewrite IH]. Qed.

Lemma ReplaceAll_gone (s : string) (old new : ascii) :
  old <> new -> occurs old (ReplaceAll s old new) = false.
Proof.
  intros Hneq. induction s as [|c r IH]; simpl; [reflexivity|].
  rewrite IH, orb_false_r.
  destruct (Ascii.eqb c old) eqn:E; [|exact E].
  apply Ascii.eqb_neq. congruence.
Qed.

Lemma ReplaceAll_get (s : string) (old new : ascii) (i : nat) :
  get i (ReplaceAll s old new)
  = option_map (fun c => if Ascii.eqb c old then new else c) (get i s).
Proof.
  revert i. induction s as [|c r IH]; intros [|i]; simpl;
    try reflexivity.
  apply IH.
Qed.

Lemma Split_dir_ends (path : string) :
  fst (Split path) = "" \/ exists d, fst (Split path) = d ++ "/".
Proof.
  induction path as [|c rest IH]; simpl; [now left|].
  destruct (Split rest) as [dir file]; simpl in *.
  destruct dir as [|x dir].
  - destruct (IsPathSeparator c) eqn:E; [|now left].
    right. exists "". apply Ascii.eqb_eq in E. now rewrite E.
  - right. destruct IH as [IH | [d IH]]; [discriminate|].
    exists (String c d). simpl. now rewrite IH.
Qed.

Lemma ReplaceAll_absent (s : string) (old new : ascii) :
  occurs old s = false -> ReplaceAll s old new = s.
Proof.
  induction s as [|c r IH]; simpl; [reflexivity|].
  intros H. apply orb_false_iff in H as [Hc Hr].
  now rewrite Hc, (IH Hr).
Qed.

Lemma replaced_byte_dot (c : ascii) :
  (if Ascii.eqb c "_" then "-"%char else c) = "."%char -> c = "."%char.
Proof. destruct (Ascii.eqb c "_"); [discriminate | auto]. Qed.

Lemma ReplaceAll_dots (s t : string) :
  t = "." \/ t = ".." -> ReplaceAll s "_" "-" = t -> s = t.
Proof.
  intros [-> | ->] H.
  - destruct s as [|c [|d r]]; simpl in H; try discriminate.
    injection H as H. now rewrite (replaced_byte_dot c H).
  - destruct s as [|c [|d [|e r]]]; simpl in H; try discriminate.
    injection H as H H'.
    now rewrite (replaced_byte_dot c H), (replaced_byte_dot d H').
Qed.

Lemma ReplaceAll_separator (s : string) :
  hasSeparator (ReplaceAll s "_" "-") = hasSeparator s.
Proof.
  induction s as [|c r IH]; simpl; [reflexivity|]. rewrite IH. f_equal.
  destruct (Ascii.eqb c "_") eqn:E; [|reflexivity].
  apply Ascii.eqb_eq in E. now subst c.
Qed.

Lemma ReplaceAll_plain (s : string) :
  plain s = true -> plain (ReplaceAll s "_" "-") = true.
Proof.
  unfold plain. rewrite ReplaceAll_separator. intros H.
  repeat (apply andb_true_iff in H as [H ?]).
  repeat (apply andb_true_iff; split); try assumption;
    apply negb_true_iff, String.eqb_neq; intros E.
  - destruct s; [discriminate H | discriminate E].
  - apply ReplaceAll_dots in E; [|now left]. now subst s.
  - apply ReplaceAll_dots in E; [|now right]. now subst s.
Qed.

(** Paths made of plain elements are clean already. *)
Lemma elements_no_separator (e : string) :
  hasSeparator e = false -> elements e = [e].
Proof.
  induction e as [|c r IH]; simpl; [reflexivity|].
  intros H. apply orb_false_iff in H as [Hc Hr].
  now rewrite Hc, (IH Hr).
Qed.

Lemma elements_cons (a b : string) :
  hasSeparator a = false -> elements (a ++ "/" ++ b) = a :: elements b.
Proof.
  induction a as [|c r IH]; intros H; [reflexivity|].
  simpl in H. apply orb_false_iff in H as [Hc Hr].
  change (String c r ++ "/" ++ b) with (String c (r ++ "/" ++ b)).
  cbn [elements]. now rewrite Hc, (IH Hr).
Qed.

Lemma strings_Join_snoc (es : list string) (e sep : string) :
  es <> [] ->
  strings_Join (es ++ [e]) sep = strings_Join es sep ++ sep ++ e.
Proof.
  induction es as [|a es IH]; intros H; [congruence|].
  destruct es as [|a' es]; [reflexivity|].
  change (strings_Join ((a :: a' :: es) ++ [e]) sep)
    with (a ++ sep ++ strings_Join ((a' :: es) ++ [e]) sep).
  rewrite IH by discriminate.
  change (strings_Join (a :: a' :: es) sep)
    with (a ++ sep ++ strings_Join (a' :: es) sep).
  now rewrite !append_assoc.
Qed.

Lemma plain_no_separator (e : string) :
  plain e = true -> hasSeparator e = false.
Proof.
  unfold plain. intros H. apply andb_true_iff in H as [_ H].
  now apply negb_true_iff.
Qed.

Lemma elements_Join (es : list string) :
  Forall (fun e => plain e = true) es -> es <> [] ->
  elements (strings_Join es "/") = es.
Proof.
  induction 1 as [|a es Ha Hes IH]; intros Hne; [congruence|].
  destruct es as [|a' es].
  - simpl. now apply elements_no_separator, plain_no_separator.
  - change (strings_Join (a :: a' :: es) "/")
      with (a ++ "/" ++ strings_Join (a' :: es) "/").
    rewrite elements_cons by now apply plain_no_separator.
    now rewrite IH.
Qed.

Lemma cleanStep_plain (rooted : bool) (out : list string) (e : string) :
  plain e = true -> cleanStep rooted out e = e :: out.
Proof.
  unfold plain, cleanStep. intros H.
  repeat (apply andb_true_iff in H as [H ?]).
  apply negb_true_iff in H, H1, H2. now rewrite H, H1, H2.
Qed.

Lemma fold_cleanStep_plain (rooted : bool) (es out : list string) :
  Forall (fun e => plain e = true) es ->
  fold_left (cleanStep rooted) es out = (rev es ++ out)%list.
Proof.
  intros H. revert out.
  induction H as [|a es Ha Hes IH]; intros out; [reflexivity|].
  simpl. rewrite (cleanStep_plain _ _ _ Ha), IH.
  now rewrite <- app_assoc.
Qed.

Lemma Clean_rooted (rest : string) :
  Clean ("/" ++ rest) =
  "/" ++ strings_Join
           (rev (fold_left (cleanStep true) (elements rest) [])) "/".
Proof. reflexivity. Qed.

Lemma Clean_absPath (es : list string) :
  Forall (fun e => plain e = true) es -> Clean (absPath es) = absPath es.
Proof.
  intros H. unfold absPath. rewrite Clean_rooted.
  destruct es as [|a es]; [reflexivity|].
  rewrite elements_Join by (assumption || discriminate).
  rewrite fold_cleanStep_plain by assumption.
  now rewrite app_nil_r, rev_involutive.
Qed.

(** Joining a plain name under a clean absolute path appends it. *)
Lemma Join_absPath (es : list string) (e : string) :
  Forall (fun e => plain e = true) es -> plain e = true ->
  Join [absPath es; e] = absPath (es ++ [e]).
Proof.
  intros Hes He.
  assert (Hall : Forall (fun e => plain e = true) (es ++ [e])).
  { apply Forall_app. split; [assumption | now constructor]. }
  change (Join [absPath es; e])
    with (Clean ("/" ++ (strings_Join es "/" ++ "/" ++ e))).
  destruct es as [|a es].
  - rewrite Clean_rooted. simpl strings_Join. cbn [append elements].
    change (IsPathSeparator "/") with true. cbv iota.
    rewrite (elements_no_separator e (plain_no_separator e He)).
    simpl. now rewrite (cleanStep_plain _ _ _ He).
  - rewrite <- strings_Join_snoc by discriminate.
    now apply (Clean_absPath ((a :: es) ++ [e])).
Qed.

Lemma Split_absPath (es : list string) (e : string) :
  hasSeparator e = false -> snd (Split (absPath (es ++ [e]))) = e.
Proof.
  intros He. unfold absPath. destruct es as [|a es].
  - change ("/" ++ strings_Join ([] ++ [e]) "/") with ("" ++ "/" ++ e).
    now rewrite Split_dir_file.
  - rewrite strings_Join_snoc by discriminate.
    rewrite <- append_assoc. now rewrite Split_dir_file.
Qed.

End golib_facts.

(** ** Package [build]: output path and construction *)

Module build_spec.
Import golib paths golib_facts build build_terms.

Lemma determineOutputDir_relocated (b : Build) (outputDir : string)
      (w : World) :
  TmpDir b <> "" ->
  determineOutputDir b outputDir w =
  match getwd w with
  | (_, Some err) =>
      (Ret ("", Some (Errorf "cannot get current working directory: %w"
                             [] err)),
       addLog (mkLog ErrorLevel "Cannot get current working directory: %v"
                     [LErr err]) w)
  | (curWorkingDir, None) =>
      if outputDir =? "" then
        (Ret (Join [curWorkingDir; defaultName b curWorkingDir], None), w)
      else if IsAbs outputDir then (Ret (Clean outputDir, None), w)
      else (Ret (Join [curWorkingDir; outputDir], None), w)
  end.
Proof.
  intros H. apply String.eqb_neq in H.
  unfold determineOutputDir. rewrite H.
  unfold bind, Getwd. destruct (getwd w) as [wd [err|]] eqn:G.
  - reflexivity.
  - destruct (outputDir =? ""); [reflexivity|].
    unfold Abs, bind, Getwd, ret.
    destruct (IsAbs outputDir); [reflexivity|]. now rewrite G.
Qed.

Lemma determineOutputDir_named (b : Build) (w : World)
      (curWorkingDir : string) :
  TmpDir b <> "" ->
  getwd w = (curWorkingDir, None) ->
  determineOutputDir b "" w =
    (Ret (Join [curWorkingDir; defaultName b curWorkingDir], None), w).
Proof.
  intros Htmp Hwd.
  rewrite determineOutputDir_relocated by assumption. now rewrite Hwd.
Qed.

(** Under a clean absolute working directory [/e1/../en/name] the default
    target is [/e1/../en/name/name'], [name'] being the default name. *)
Lemma determineOutputDir_plain (b : Build) (w : World)
      (es : list string) (name : string) :
  TmpDir b <> "" ->
  getwd w = (absPath (es ++ [name]), None) ->
  Forall (fun e => plain e = true) (es ++ [name]) ->
  determineOutputDir b "" w =
    (Ret (absPath (es ++ [name;
                          if IsMod b then ReplaceAll name "_" "-"
                          else name]), None), w).
Proof.
  intros Htmp Hwd Hplain.
  rewrite (determineOutputDir_named b w _ Htmp Hwd). unfold defaultName.
  apply Forall_app in Hplain as Hboth. destruct Hboth as [_ Hname].
  inversion Hname as [|? ? Hn _]; subst.
  rewrite Split_absPath by now apply plain_no_separator.
  rewrite Join_absPath.
  - now rewrite <- app_assoc.
  - assumption.
  - destruct (IsMod b); [now apply ReplaceAll_plain | assumption].
Qed.

(** C1: after relocation and without an explicit output directory the
    resolved path is the working directory joined with a name made from its
    own last segment.  The last segment is what follows the final separator
    of the working directory.  In a legacy project the name is that segment
    untouched; in a module project it is the segment with every underscore
    turned into a hyphen: as long as the segment, byte for byte the same
    but for a hyphen wherever the segment has an underscore, and so free of
    underscores.  When the working directory is a clean absolute path
    [/e1/../en/seg] the result is that path followed by the name. *)
Theorem determineOutputDir_default
        (b : Build) (w : World) (curWorkingDir : string) :
  TmpDir b <> "" ->
  getwd w = (curWorkingDir, None) ->
  determineOutputDir b "" w =
    (Ret (Join [curWorkingDir;
                if IsMod b
                then ReplaceAll (snd (Split curWorkingDir)) "_" "-"
                else snd (Split curWorkingDir)], None), w)
  /\ (exists dir : string,
        curWorkingDir = dir ++ snd (Split curWorkingDir)
        /\ hasSeparator (snd (Split curWorkingDir)) = false
        /\ (dir = "" \/ exists d, dir = d ++ "/"))
  /\ (String.length (ReplaceAll (snd (Split curWorkingDir)) "_" "-")
       = String.length (snd (Split curWorkingDir))
      /\ (forall i : nat,
            get i (ReplaceAll (snd (Split curWorkingDir)) "_" "-")
            = option_map hyphenate (get i (snd (Split curWorkingDir))))
      /\ occurs "_" (ReplaceAll (snd (Split curWorkingDir)) "_" "-") = false)
  /\ (forall (es : list string) (name : string),
        Forall (fun e => plain e = true) (es ++ [name]) ->
        curWorkingDir = absPath (es ++ [name]) ->
        determineOutputDir b "" w =
          (Ret (absPath (es ++ [name;
                                if IsMod b then ReplaceAll name "_" "-"
                                else name]), None), w)).
Proof.
  intros Htmp Hwd. split.
  { exact (determineOutputDir_named b w curWorkingDir Htmp Hwd). }
  split.
  { exists (fst (Split curWorkingDir)).
    split; [now rewrite Split_append|].
    split; [apply Split_file_no_separator | apply Split_dir_ends]. }
  split.
  { split; [apply ReplaceAll_length|].
    split; [intros i; apply ReplaceAll_get|].
    apply ReplaceAll_gone. discriminate. }
  intros es name Hplain E. rewrite E in Hwd.
  now apply determineOutputDir_plain.
Qed.

Lemma determineOutputDir_default_witness :
  determineOutputDir (relocated false) "" (quiet "/R/src/myapp") =
    (Ret ("/R/src/myapp/myapp", None), quiet "/R/src/myapp")
  /\ determineOutputDir (relocated true) "" (quiet "/home/u/my_app") =
       (Ret ("/home/u/my_app/my-app", None), quiet "/home/u/my_app")
  /\ (forall i : nat,
        get i (ReplaceAll (snd (Split "/home/u/my_app")) "_" "-")
        = option_map hyphenate (get i "my_app")).
Proof.
  assert (T : forall isMod, TmpDir (relocated isMod) <> "")
    by (intros isMod; discriminate).
  split; [|split].
  - refine (proj2 (proj2 (proj2 (determineOutputDir_default
                     (relocated false) (quiet "/R/src/myapp") "/R/src/myapp"
                     (T false) eq_refl)))
                  ["R"; "src"] "myapp" _ eq_refl).
    repeat constructor.
  - exact (proj1 (determineOutputDir_default
                    (relocated true) (quiet "/home/u/my_app")
                    "/home/u/my_app" (T true) eq_refl)).
  - exact (proj1 (proj2 (proj1 (proj2 (proj2
             (determineOutputDir_default
                (relocated true) (quiet "/home/u/my_app")
                "/home/u/my_app" (T true) eq_refl)))))).
Defined.

Lemma NewBuild_dot (MvProjectsToTmp : Build -> M Build)
      (buildflags outputDir : string) :
  NewBuild MvProjectsToTmp buildflags "." outputDir =
  (b <- MvProjectsToTmp (fresh buildflags ".") ;;
   r <- determineOutputDir b outputDir ;;
   match snd r with
   | Some err => ret (None, Some err)
   | None => ret (Some (setTarget (fst r) b), None)
   end).
Proof. reflexivity. Qed.

(** C2, as the code has it: in a module project whose working directory
    ends in [my_app], construction with the specifier [.] and no explicit
    output directory resolves the target to [my-app] inside the working
    directory itself, [<cwd>/my-app]. *)
Theorem NewBuild_module_default
        (MvProjectsToTmp : Build -> M Build)
        (buildflags : string) (w w1 : World) (b1 : Build)
        (parent : list string) :
  MvProjectsToTmp (fresh buildflags ".") w = (Ret b1, w1) ->
  TmpDir b1 <> "" ->
  IsMod b1 = true ->
  Forall (fun e => plain e = true) parent ->
  getwd w1 = (absPath (parent ++ ["my_app"]), None) ->
  NewBuild MvProjectsToTmp buildflags "." "" w =
    (Ret (Some (setTarget (absPath (parent ++ ["my_app"; "my-app"])) b1),
          None), w1).
Proof.
  intros Hmv Htmp Hmod Hparent Hwd.
  rewrite NewBuild_dot. unfold bind at 1. rewrite Hmv. unfold bind at 1.
  rewrite (determineOutputDir_plain b1 w1 parent "my_app" Htmp Hwd)
    by (apply Forall_app; split; auto).
  now rewrite Hmod.
Qed.

Lemma NewBuild_module_default_witness :
  NewBuild (relocateAs true) "-v" "." "" (quiet "/home/u/my_app") =
    (Ret (Some (setTarget "/home/u/my_app/my-app"
                  (mkBuild [] "" "" "/tmp/goc-build-1" "/tmp/goc-build-1"
                           true "" "" "-v" "." "" "")), None),
     quiet "/home/u/my_app").
Proof.
  refine (NewBuild_module_default (relocateAs true) "-v"
            (quiet "/home/u/my_app") (quiet "/home/u/my_app") _
            ["home"; "u"] eq_refl _ eq_refl _ eq_refl).
  - discriminate.
  - repeat constructor.
Defined.

(** C2 as stated fails: with working directory [/home/u/my_app] the target
    is [/home/u/my_app/my-app], not [/home/u/my-app] in the parent. *)
Lemma module_default_not_in_parent :
  determineOutputDir (relocated true) "" (quiet "/home/u/my_app") =
    (Ret ("/home/u/my_app/my-app", None), quiet "/home/u/my_app")
  /\ fst (Split "/home/u/my_app") = "/home/u/"
  /\ "/home/u/my_app/my-app" <> Join ["/home/u/"; "my-app"].
Proof. repeat split. discriminate. Qed.

(** C3, as the code has it: for every specifier other than [.]
    construction fails with [ErrWrongPackageTypeForBuild], hands back no
    descriptor and never runs the relocation; the one thing it does is
    write an error line to the log.  For [.] the validator accepts and
    construction goes on to relocation and path resolution. *)
Theorem NewBuild_validates
        (MvProjectsToTmp : Build -> M Build)
        (buildflags packages outputDir : string) (w : World) :
  (packages <> "." ->
     validatePackageForBuild (fresh buildflags packages) = false
     /\ NewBuild MvProjectsToTmp buildflags packages outputDir w =
          (Ret (None, Some ErrWrongPackageTypeForBuild),
           addLog (mkLog ErrorLevel "%v" [LErr ErrWrongPackageTypeForBuild])
                  w))
  /\ (packages = "." ->
       validatePackageForBuild (fresh buildflags packages) = true
       /\ NewBuild MvProjectsToTmp buildflags packages outputDir w =
            (b <- MvProjectsToTmp (fresh buildflags packages) ;;
             r <- determineOutputDir b outputDir ;;
             match snd r with
             | Some err => ret (None, Some err)
             | None => ret (Some (setTarget (fst r) b), None)
             end) w).
Proof.
  split.
  - intros H. apply String.eqb_neq in H.
    unfold NewBuild, validatePackageForBuild, fresh. cbn [Packages].
    now rewrite H.
  - intros ->. split; [reflexivity|]. now rewrite NewBuild_dot.
Qed.

Lemma NewBuild_validates_witness :
  NewBuild (relocateAs false) "-v" "./sub" "" (quiet "/R/src/myapp") =
    (Ret (None, Some ErrWrongPackageTypeForBuild),
     addLog (mkLog ErrorLevel "%v" [LErr ErrWrongPackageTypeForBuild])
            (quiet "/R/src/myapp"))
  /\ validatePackageForBuild (fresh "-v" ".") = true.
Proof.
  split.
  - refine (proj2 (proj1 (NewBuild_validates (relocateAs false) "-v" "./sub"
                            "" (quiet "/R/src/myapp")) _)).
    discriminate.
  - exact (proj1 (proj2 (NewBuild_validates (relocateAs false) "-v" "."
                           "" (quiet "/R/src/myapp")) eq_refl)).
Defined.

(** C3 as stated fails: rejecting [./sub] leaves a trace, the world after
    the call holds a log line the world before did not. *)
Lemma NewBuild_rejection_is_logged :
  fst (NewBuild (relocateAs false) "-v" "./sub" ""
                (quiet "/R/src/myapp"))
    = Ret (None, Some ErrWrongPackageTypeForBuild)
  /\ logs (snd (NewBuild (relocateAs false) "-v" "./sub" ""
                         (quiet "/R/src/myapp")))
     = [mkLog ErrorLevel "%v" [LErr ErrWrongPackageTypeForBuild]]
  /\ snd (NewBuild (relocateAs false) "-v" "./sub" ""
                   (quiet "/R/src/myapp"))
     <> quiet "/R/src/myapp".
Proof.
  repeat split. intros H. apply (f_equal logs) in H. discriminate H.
Qed.

(** C4: whatever the explicit output directory, resolving the path of a
    descriptor whose [TmpDir] is empty fails with an error that wraps
    [ErrWrongCallSequence], and the path handed back is empty. *)
Theorem determineOutputDir_before_relocation
        (b : Build) (outputDir : string) (w : World) :
  TmpDir b = "" ->
  exists err : error,
    determineOutputDir b outputDir w =
      (Ret ("", Some err),
       addLog (mkLog ErrorLevel
                 "Can only be called after Build.MvProjectsToTmp(): %v"
                 [LErr ErrWrongCallSequence]) w)
    /\ err = Errorf "can only be called after Build.MvProjectsToTmp(): %w"
                    [] ErrWrongCallSequence
    /\ cause err = ErrWrongCallSequence.
Proof.
  intros H. eexists. unfold determineOutputDir. rewrite H.
  repeat split.
Qed.

Lemma determineOutputDir_before_relocation_witness :
  exists err : error,
    determineOutputDir (fresh "-v" ".") "/out" (quiet "/R/src/myapp") =
      (Ret ("", Some err),
       addLog (mkLog ErrorLevel
                 "Can only be called after Build.MvProjectsToTmp(): %v"
                 [LErr ErrWrongCallSequence]) (quiet "/R/src/myapp"))
    /\ err = Errorf "can only be called after Build.MvProjectsToTmp(): %w"
                    [] ErrWrongCallSequence
    /\ cause err = ErrWrongCallSequence.
Proof.
  exact (determineOutputDir_before_relocation
           (fresh "-v" ".") "/out" (quiet "/R/src/myapp") eq_refl).
Defined.

End build_spec.

(** ** Package [build]: invoking the toolchain *)

Module invoke_spec.
Import golib paths golib_facts build build_terms.

Lemma Build_Build_runs (b : Build) (w : World) :
  exists w1 : World,
    Build_Build b w =
      (Ret (setBuildFlags (BuildFlags b ++ " -o " ++ Target b) b,
            match startAnswer w (buildCmd b w) with
            | Some e => Some (Errorf "fail to execute: %v: %w"
                                     [AStrs (Args (buildCmd b w))] e)
            | None =>
                match waitAnswer w (buildCmd b w) with
                | Some e => Some (Errorf "go build faileds: %w" [] e)
                | None => None
                end
            end), w1)
    /\ started w1 = (started w ++ [buildCmd b w])%list
    /\ sameSurroundings w w1.
Proof.
  unfold Build_Build, buildCmd, gopathEnv, withGOPATH, sameSurroundings.
  unfold bind, logf, Start, Wait, Environ, ret, Command.
  cbn [BuildFlags setBuildFlags NewGOPATH Target Packages TmpWorkingDir
       Path Args Dir Env Stdout Stderr].
  destruct (NewGOPATH b =? "");
    cbv [startAnswer waitAnswer addLog addStarted environ started getwd
         Path Args Dir Env Stdout Stderr];
    match goal with
    | |- context [match ?s with Some _ => _ | None => _ end] =>
        destruct s;
        [|match goal with
          | |- context [match ?t with Some _ => _ | None => _ end] =>
              destruct t
          end]
    end;
    eexists; repeat split.
Qed.

Lemma Run_runs (b : Build) (w : World) :
  exists w1 : World,
    Run b w =
      (match startAnswer w (runCmd b w) with
       | Some _ => Exit 1%Z
       | None =>
           match waitAnswer w (runCmd b w) with
           | Some _ => Exit 1%Z
           | None => Ret tt
           end
       end, w1)
    /\ started w1 = (started w ++ [runCmd b w])%list
    /\ sameSurroundings w w1.
Proof.
  unfold Run, runCmd, gopathEnv, withGOPATH, sameSurroundings.
  unfold bind, logf, Start, Wait, Environ, ret, Command, Fatalf.
  cbn [Path Args Dir Env Stdout Stderr].
  destruct (NewGOPATH b =? "");
    cbv [startAnswer waitAnswer addLog addStarted environ started getwd
         Path Args Dir Env Stdout Stderr];
    match goal with
    | |- context [match ?s with Some _ => _ | None => _ end] =>
        destruct s;
        [|match goal with
          | |- context [match ?t with Some _ => _ | None => _ end] =>
              destruct t
          end]
    end;
    eexists; repeat split.
Qed.

Lemma append_grows (a x : string) : x <> "" -> a ++ x <> a.
Proof.
  intros Hx H. apply (f_equal String.length) in H.
  rewrite length_append in H.
  destruct x; [congruence | simpl in H; lia].
Qed.

(** C5: one call of [Build] appends [" -o " ++ Target] to [BuildFlags]
    once, leaves target and specifier alone, and starts
    [/bin/bash -c "go build <BuildFlags> <Packages>"] with the extended
    flags; a second call on the same descriptor appends the flag again, so
    the flags after two calls differ from the flags after one. *)
Theorem Build_appends_output_flag (b : Build) (w : World) :
  exists (b1 : Build) (e1 : option error) (w1 : World) (cmd : Cmd),
    Build_Build b w = (Ret (b1, e1), w1)
    /\ BuildFlags b1 = BuildFlags b ++ " -o " ++ Target b
    /\ Target b1 = Target b
    /\ Packages b1 = Packages b
    /\ started w1 = (started w ++ [cmd])%list
    /\ Args cmd = ["/bin/bash"; "-c";
                   "go build " ++ BuildFlags b1 ++ " " ++ Packages b1]
    /\ exists (b2 : Build) (e2 : option error) (w2 : World),
         Build_Build b1 w1 = (Ret (b2, e2), w2)
         /\ BuildFlags b2 =
              (BuildFlags b ++ " -o " ++ Target b) ++ " -o " ++ Target b
         /\ BuildFlags b2 <> BuildFlags b1.
Proof.
  destruct (Build_Build_runs b w) as [w1 [E1 [S1 _]]].
  destruct (Build_Build_runs
              (setBuildFlags (BuildFlags b ++ " -o " ++ Target b) b) w1)
    as [w2 [E2 _]].
  do 4 eexists. split; [exact E1|].
  repeat (split; [reflexivity || exact S1|]).
  do 3 eexists. split; [exact E2|].
  split; [reflexivity|].
  cbn [BuildFlags setBuildFlags Target]. apply append_grows. discriminate.
Qed.

(** Scenario 6: flags [-v] and target [/out/app]. *)
Example Build_scenario (w : World) :
  exists (e : option error) (w1 : World) (cmd : Cmd),
    Build_Build (mkBuild [] "" "" "/tmp/w" "/tmp/w" true "/p" "/out/app"
                         "-v" "." "" "") w
    = (Ret (mkBuild [] "" "" "/tmp/w" "/tmp/w" true "/p" "/out/app"
                    "-v -o /out/app" "." "" "", e), w1)
    /\ started w1 = (started w ++ [cmd])%list
    /\ Args cmd = ["/bin/bash"; "-c"; "go build -v -o /out/app ."].
Proof.
  destruct (Build_Build_runs
              (mkBuild [] "" "" "/tmp/w" "/tmp/w" true "/p" "/out/app"
                       "-v" "." "" "") w) as [w1 [E1 [S1 _]]].
  do 3 eexists. split; [exact E1|]. split; [exact S1 | reflexivity].
Qed.

(** The last entry of an environment wins. *)
Lemma lookupEnv_snoc (env : list string) (kv key : string) :
  lookupEnv (env ++ [kv]) key =
  if entryKey kv =? key then Some (entryValue kv) else lookupEnv env key.
Proof.
  induction env as [|x env IH]; simpl.
  - destruct (entryKey kv =? key); reflexivity.
  - rewrite IH. destruct (entryKey kv =? key); reflexivity.
Qed.

Lemma gopathEnv_rule (b : Build) (w w1 : World) (cmd : Cmd) :
  Env cmd = gopathEnv b w -> environ w1 = environ w ->
  environmentRule b w w1 cmd.
Proof.
  unfold environmentRule, gopathEnv, childEnviron. intros -> Henv.
  split; [exact Henv|]. split.
  - intros ->. now split.
  - intros H. apply String.eqb_neq in H. rewrite H.
    split; [reflexivity|]. split.
    + now rewrite lookupEnv_snoc.
    + intros key Hkey. rewrite lookupEnv_snoc.
      cbn [entryKey append Ascii.eqb Bool.eqb].
      apply not_eq_sym, String.eqb_neq in Hkey. now rewrite Hkey.
Qed.

(** C6: in [Build] and in [Run] alike the command started runs in the
    parent's environment with [GOPATH] overridden to [NewGOPATH] when that
    is set, and in the parent's environment as it is when [NewGOPATH] is
    empty; the parent's own environment is the same after the call. *)
Theorem child_environment (b : Build) (w : World) :
  (exists out w1 cmd,
      Build_Build b w = (out, w1)
      /\ started w1 = (started w ++ [cmd])%list
      /\ environmentRule b w w1 cmd)
  /\ (exists out w1 cmd,
        Run b w = (out, w1)
        /\ started w1 = (started w ++ [cmd])%list
        /\ environmentRule b w w1 cmd).
Proof.
  split.
  - destruct (Build_Build_runs b w) as [w1 [E [S [Henv _]]]].
    do 3 eexists. split; [exact E|]. split; [exact S|].
    now apply gopathEnv_rule.
  - destruct (Run_runs b w) as [w1 [E [S [Henv _]]]].
    do 3 eexists. split; [exact E|]. split; [exact S|].
    now apply gopathEnv_rule.
Qed.

(** A legacy descriptor in a parent with [GOPATH=/R]: the child sees the
    new root and the parent's [PATH]. *)
Example child_environment_legacy :
  exists out w1 cmd,
    Run (relocated false) (quiet "/R/src/myapp") = (out, w1)
    /\ started w1 = [cmd]
    /\ lookupEnv (environ (quiet "/R/src/myapp")) "GOPATH" = Some "/R"
    /\ lookupEnv (childEnviron w1 cmd) "GOPATH" = Some "/tmp/goc-build-1"
    /\ lookupEnv (childEnviron w1 cmd) "PATH" = Some "/usr/bin"
    /\ lookupEnv (environ w1) "GOPATH" = Some "/R".
Proof.
  do 3 eexists. split; [cbv; reflexivity|]. repeat split.
Qed.

(** C9: when the command [Run] starts cannot be started, or waiting for
    it fails, [Run] ends the calling process with exit status 1 and hands
    nothing back (its result type holds no error); in the same cases
    [Build] returns, handing its caller an error that wraps the failure. *)
Theorem Run_exits_where_Build_returns (b : Build) (w : World) :
  (exists (cmd : Cmd),
      started (snd (Run b w)) = (started w ++ [cmd])%list
      /\ (forall e, startAnswer w cmd = Some e ->
                    fst (Run b w) = Exit 1%Z)
      /\ (forall e, startAnswer w cmd = None -> waitAnswer w cmd = Some e ->
                    fst (Run b w) = Exit 1%Z)
      /\ (startAnswer w cmd = None -> waitAnswer w cmd = None ->
          fst (Run b w) = Ret tt))
  /\ (exists (cmd : Cmd) (b1 : Build),
        started (snd (Build_Build b w)) = (started w ++ [cmd])%list
        /\ (forall e, startAnswer w cmd = Some e ->
                      fst (Build_Build b w) =
                      Ret (b1, Some (Errorf "fail to execute: %v: %w"
                                            [AStrs (Args cmd)] e)))
        /\ (forall e, startAnswer w cmd = None ->
                      waitAnswer w cmd = Some e ->
                      fst (Build_Build b w) =
                      Ret (b1, Some (Errorf "go build faileds: %w" [] e)))
        /\ (startAnswer w cmd = None -> waitAnswer w cmd = None ->
            fst (Build_Build b w) = Ret (b1, None))).
Proof.
  split.
  - destruct (Run_runs b w) as [w1 [E [S _]]].
    exists (runCmd b w). rewrite E. cbn [fst snd].
    split; [exact S|].
    repeat split; intros; 
      repeat match goal with H : _ = _ |- _ => rewrite H end; reflexivity.
  - destruct (Build_Build_runs b w) as [w1 [E [S _]]].
    exists (buildCmd b w). eexists. rewrite E. cbn [fst snd].
    split; [exact S|].
    repeat split; intros;
      repeat match goal with H : _ = _ |- _ => rewrite H end; reflexivity.
Qed.

Lemma Run_exits_where_Build_returns_witness :
  fst (Run (relocated false) noStart) = Exit 1%Z
  /\ fst (Run (relocated false) badExit) = Exit 1%Z
  /\ (exists b1 err,
        fst (Build_Build (relocated false) badExit)
          = Ret (b1, Some err)
        /\ cause err = OSError "exit status 2").
Proof.
  split; [|split].
  - destruct (proj1 (Run_exits_where_Build_returns
                       (relocated false) noStart))
      as [cmd [_ [H _]]].
    exact (H _ eq_refl).
  - destruct (proj1 (Run_exits_where_Build_returns
                       (relocated false) badExit))
      as [cmd [_ [_ [H _]]]].
    exact (H _ eq_refl eq_refl).
  - destruct (proj2 (Run_exits_where_Build_returns
                       (relocated false) badExit))
      as [cmd [b1 [_ [_ [H _]]]]].
    exists b1. eexists. split; [exact (H _ eq_refl eq_refl) | reflexivity].
Defined.

End invoke_spec.

(** ** Package [client]: the narrow command column *)

Module client_spec.
Import golib paths golib_facts client client_terms.
Open Scope Z_scope.

Lemma wrapInt_small (z : Z) : isInt z -> wrapInt z = z.
Proof.
  unfold isInt, wrapInt, minInt, maxInt. intros H.
  rewrite Z.mod_small; lia.
Qed.

Lemma firstn_string_all (n : nat) (s : string) :
  (String.length s <= n)%nat -> firstn_string n s = s.
Proof.
  revert n. induction s as [|c r IH]; intros [|n] H; simpl in *;
    try reflexivity; try lia.
  rewrite IH; [reflexivity | lia].
Qed.

Lemma firstn_string_length (n : nat) (s : string) :
  String.length (firstn_string n s) = Nat.min n (String.length s).
Proof.
  revert n. induction s as [|c r IH]; intros [|n]; simpl; try reflexivity.
  now rewrite IH.
Qed.

Lemma firstn_string_prefix (n : nat) (s : string) :
  prefix (firstn_string n s) s = true.
Proof.
  revert n. induction s as [|c r IH]; intros [|n]; simpl; try reflexivity.
  destruct (ascii_dec c c); [apply IH | congruence].
Qed.

Lemma clipWidth_floor (size : option (Z * Z)) (preLen : Z) :
  16 <= clipWidth size preLen.
Proof.
  unfold clipWidth. destruct size as [[width h]|]; [|lia].
  destruct (Z.leb_spec width (preLen + 16)); lia.
Qed.

Lemma getSimpleCmdLine_clips (preLen : Z) (cmdLine : string) (w : World) :
  0 <= preLen <= maxInt - 16 ->
  sizeIsInt w ->
  getSimpleCmdLine preLen cmdLine w =
    (Ret (firstn_string (Z.to_nat (clipWidth (termSize w) preLen)) cmdLine),
     w).
Proof.
  intros Hpre Hsize.
  assert (Hsum : addInt preLen 16 = preLen + 16 /\ addInt 16 preLen = preLen + 16).
  { unfold addInt. rewrite !wrapInt_small; unfold isInt, minInt, maxInt in *; lia. }
  destruct Hsum as [Hsum Hsum'].
  assert (Hcut : subInt
                   (match termSize w with
                    | None => addInt 16 preLen
                    | Some (width, _) =>
                        if width <=? addInt preLen 16
                        then addInt 16 preLen else width
                    end) preLen = clipWidth (termSize w) preLen).
  { unfold clipWidth, subInt. rewrite Hsum, Hsum'.
    destruct (termSize w) as [[width h]|] eqn:E.
    - specialize (Hsize width h E).
      destruct (Z.leb_spec width (preLen + 16));
        rewrite wrapInt_small; unfold isInt, minInt, maxInt in *; lia.
    - rewrite wrapInt_small; unfold isInt, minInt, maxInt in *; lia. }
  unfold getSimpleCmdLine, bind, GetSize. rewrite Hcut.
  pose proof (clipWidth_floor (termSize w) preLen) as Hfloor.
  destruct (Z.gtb_spec (len cmdLine) (clipWidth (termSize w) preLen))
    as [Hlong | Hshort].
  - unfold slice, sliceTo.
    replace (0 <=? clipWidth (termSize w) preLen) with true
      by (symmetry; apply Z.leb_le; lia).
    replace (clipWidth (termSize w) preLen <=? len cmdLine) with true
      by (symmetry; apply Z.leb_le; lia).
    reflexivity.
  - unfold ret. rewrite firstn_string_all; [reflexivity|].
    unfold len in Hshort. lia.
Qed.

Lemma shown_length (k : Z) (s : string) :
  0 <= k -> len (firstn_string (Z.to_nat k) s) = Z.min k (len s).
Proof.
  intros Hk. unfold len. rewrite firstn_string_length. lia.
Qed.

(** C10, as the code has it: for every command line and every prefix
    length from 0 up to [maxInt - 16] the clipping function returns
    without a panic, what it returns is a prefix of the command line, and
    it shows at least [min (len cmdLine) 16] bytes; when the terminal
    reports a width of at most [preLen + 16] it shows exactly that many,
    the clip width being held at 16. *)
Theorem getSimpleCmdLine_total
        (preLen : Z) (cmdLine : string) (w : World) :
  0 <= preLen <= maxInt - 16 ->
  sizeIsInt w ->
  exists shown : string,
    getSimpleCmdLine preLen cmdLine w = (Ret shown, w)
    /\ prefix shown cmdLine = true
    /\ Z.min (len cmdLine) 16 <= len shown
    /\ (forall width height,
           termSize w = Some (width, height) -> width <= preLen + 16 ->
           len shown = Z.min (len cmdLine) 16).
Proof.
  intros Hpre Hsize. eexists.
  split; [now apply getSimpleCmdLine_clips|].
  pose proof (clipWidth_floor (termSize w) preLen) as Hfloor.
  split; [apply firstn_string_prefix|].
  rewrite shown_length by lia. split; [lia|].
  intros width height E Hnarrow. rewrite E. unfold clipWidth.
  destruct (Z.leb_spec width (preLen + 16)); lia.
Qed.

Lemma getSimpleCmdLine_total_witness :
  exists shown : string,
    getSimpleCmdLine 18 "/bin/foo --flag=verylongvalue"
                     (terminal (Some (30, 24)))
      = (Ret shown, terminal (Some (30, 24)))
    /\ prefix shown "/bin/foo --flag=verylongvalue" = true
    /\ Z.min (len "/bin/foo --flag=verylongvalue") 16 <= len shown
    /\ (forall width height,
           termSize (terminal (Some (30, 24))) = Some (width, height) ->
           width <= 18 + 16 ->
           len shown = Z.min (len "/bin/foo --flag=verylongvalue") 16).
Proof.
  apply (getSimpleCmdLine_total 18 "/bin/foo --flag=verylongvalue"
                                (terminal (Some (30, 24)))).
  - unfold maxInt. lia.
  - intros width height E. injection E as <- <-.
    unfold isInt, minInt, maxInt. lia.
Defined.

(** C10 as stated fails: a prefix length within 16 of [maxInt] makes
    [preLen+16] wrap to a negative number, the detected width is kept, and
    the slice bound [width-preLen] is negative: the function panics. *)
Lemma getSimpleCmdLine_panics :
  0 <= 9223372036854775800 <= maxInt
  /\ getSimpleCmdLine 9223372036854775800 "a" (terminal (Some (80, 24)))
     = (Panic "slice bounds out of range", terminal (Some (80, 24))).
Proof. split; [unfold maxInt; lia | reflexivity]. Qed.

(** *** The narrow rows *)

Lemma len_nonneg (s : string) : 0 <= len s.
Proof. unfold len. lia. Qed.

Lemma agentRow_narrow (agent : gocCoveredAgent) (w : World) :
  fitsInt agent -> sizeIsInt w ->
  agentRow false agent w = (Ret (narrowRow (termSize w) agent), w).
Proof.
  unfold fitsInt, prefixLen. intros Hfit Hsize.
  pose proof (len_nonneg (Id agent)). pose proof (len_nonneg (RemoteIP agent)).
  assert (E : addInt (addInt (len (Id agent)) (len (RemoteIP agent))) 9
              = len (Id agent) + len (RemoteIP agent) + 9).
  { unfold addInt.
    rewrite (wrapInt_small (len (Id agent) + len (RemoteIP agent)))
      by (unfold isInt, minInt, maxInt in *; lia).
    apply wrapInt_small. unfold isInt, minInt, maxInt in *. lia. }
  unfold agentRow, bind. rewrite E.
  rewrite getSimpleCmdLine_clips by (assumption || lia).
  reflexivity.
Qed.

Lemma appendRows_narrow (items : list gocCoveredAgent) (table : Table)
      (w : World) :
  Forall fitsInt items -> sizeIsInt w ->
  appendRows false items table w =
    (Ret (setRows table
            (rows table ++ map (narrowRow (termSize w)) items)%list), w).
Proof.
  intros Hfit Hsize. revert table.
  induction Hfit as [|agent items Ha Hitems IH]; intros table.
  - simpl. rewrite app_nil_r. now destruct table.
  - cbn [appendRows]. unfold bind at 1.
    rewrite agentRow_narrow by assumption. rewrite IH.
    unfold setRows, Append. cbn [rows map]. now rewrite <- app_assoc.
Qed.

Lemma narrowRow_fits (size : option (Z * Z)) (agent : gocCoveredAgent) :
  narrowRowFits size agent (narrowRow size agent).
Proof.
  unfold narrowRowFits, narrowRow. eexists. split; [reflexivity|].
  split; [apply firstn_string_prefix|].
  pose proof (clipWidth_floor size (prefixLen agent)) as Hfloor.
  rewrite shown_length by lia. revert Hfloor. unfold clipWidth.
  destruct size as [[width h]|]; [|lia].
  destruct (Z.leb_spec width (prefixLen agent + 16)); lia.
Qed.

Lemma ListAgents_stages (Unmarshal : string -> gocListAgents * option error)
      (c : client) (wide : bool) :
  ListAgents Unmarshal c wide =
  (r <- do c "GET" (Host c ++ CoverAgentsListAPI) "" None ;;
   r <- match snd r with
        | Some err =>
            if isNetworkError err
            then do c "GET" (Host c ++ CoverAgentsListAPI) "" None
            else ret r
        | None => ret r
        end ;;
   present Unmarshal wide r).
Proof. reflexivity. Qed.

Lemma do_attempt (c : client) (w : World) :
  do c "GET" (Host c ++ CoverAgentsListAPI) "" None w =
    (Ret (results (answers w (List.length (attempts w)))), afterGets c 1 w).
Proof.
  unfold do, afterGets, get. cbn [String.eqb repeat].
  destruct (answers w (List.length (attempts w))); reflexivity.
Qed.

Lemma results_failure (x : exchange) : snd (results x) = failure x.
Proof. destruct x; reflexivity. Qed.

Lemma afterGets_twice (c : client) (w : World) :
  afterGets c 1 (afterGets c 1 w) = afterGets c 2 w.
Proof.
  unfold afterGets.
  cbn [answers attempts termSize stdout fatal fatalStatus repeat].
  now rewrite <- app_assoc.
Qed.

(** The exchanges of [ListAgents]: one or two calls of [do], the results of
    the last one being kept. *)
Lemma ListAgents_fetches
      (Unmarshal : string -> gocListAgents * option error)
      (c : client) (wide : bool) (w : World) :
  ListAgents Unmarshal c wide w =
  present Unmarshal wide (results (lastExchange w))
          (afterGets c
             (match failure (answers w (List.length (attempts w))) with
              | Some err => if isNetworkError err then 2 else 1
              | None => 1
              end) w).
Proof.
  rewrite ListAgents_stages. unfold bind at 1. rewrite do_attempt.
  unfold bind at 1. rewrite results_failure. unfold lastExchange.
  destruct (failure (answers w (List.length (attempts w)))) as [err|];
    [|reflexivity].
  destruct (isNetworkError err); [|reflexivity].
  rewrite do_attempt, afterGets_twice.
  cbn [afterGets answers attempts repeat].
  rewrite length_app. cbn [List.length]. now rewrite Nat.add_1_r.
Qed.

(** C7, as the code has it: when the listing arrives and decodes, every
    agent gets one row in narrow mode, made of its id, its remote address
    and a prefix of its command line.  That prefix is no longer than the
    larger of 16 and the detected width minus the fixed prefix
    [len(id)+len(remoteip)+9]: it stays within width minus prefix whenever
    the terminal is more than 16 columns wider than the prefix, it is no
    longer than 16 bytes on a narrower terminal, and it is no longer than 16
    bytes when no width is detected. *)
Theorem narrow_rows_fit
        (Unmarshal : string -> gocListAgents * option error)
        (c : client) (w : World) (res : Response) (body : string)
        (agents : gocListAgents) :
  lastExchange w = Responds res body ->
  Unmarshal body = (agents, None) ->
  Forall fitsInt (Items agents) ->
  sizeIsInt w ->
  exists (w1 : World) (table : Table),
    ListAgents Unmarshal c false w = (Ret tt, w1)
    /\ stdout w1 = (stdout w ++ [table])%list
    /\ header table = ["ID"; "REMOTEIP"; "CMD"]
    /\ Forall2 (narrowRowFits (termSize w)) (Items agents) (rows table).
Proof.
  intros Hlast Hbody Hfit Hsize.
  rewrite ListAgents_fetches, Hlast. unfold results, present.
  rewrite Hbody. unfold bind at 1.
  rewrite appendRows_narrow by assumption.
  unfold Render. do 2 eexists. split; [reflexivity|].
  cbn [stdout header rows setRows termSize afterGets app].
  repeat split.
  clear. induction (Items agents) as [|a l IH]; constructor.
  - apply narrowRow_fits.
  - exact IH.
Qed.

Lemma narrow_rows_fit_witness :
  exists (w1 : World) (table : Table),
    ListAgents decodeAgent1 (mkClient "http://127.0.0.1:7777") false
               (terminal None) = (Ret tt, w1)
    /\ stdout w1 = [table]
    /\ header table = ["ID"; "REMOTEIP"; "CMD"]
    /\ Forall2 (narrowRowFits None) [agent1] (rows table).
Proof.
  apply (narrow_rows_fit decodeAgent1 (mkClient "http://127.0.0.1:7777")
                         (terminal None) (mkResponse 200) "{}"
                         (mkList [agent1]) eq_refl eq_refl).
  - repeat constructor. unfold fitsInt, maxInt. vm_compute. discriminate.
  - intros width height E. discriminate E.
Defined.

Example narrow_scenario :
  stdout (snd (ListAgents decodeAgent1 (mkClient "http://127.0.0.1:7777")
                          false (terminal None)))
  = [mkTable "" "" "" false false "   " true false ALIGN_LEFT false
             ["ID"; "REMOTEIP"; "CMD"]
             [ALIGN_LEFT; ALIGN_LEFT; ALIGN_LEFT]
             [["1"; "10.0.0.1"; "/bin/foo --flag="]]].
Proof. reflexivity. Qed.

(** C7 as stated fails: on a terminal 12 columns wide the row of this
    agent shows 16 bytes of the command; that is more than the width
    minus the prefix of 18, and more than the width itself. *)
Lemma narrow_row_exceeds_width :
  agentRow false agent1 (terminal (Some (12, 24)))
    = (Ret ["1"; "10.0.0.1"; "/bin/foo --flag="], terminal (Some (12, 24)))
  /\ prefixLen agent1 = 18
  /\ ~ (len "/bin/foo --flag=" <= 12 - prefixLen agent1)
  /\ ~ (len "/bin/foo --flag=" <= 12).
Proof.
  split; [reflexivity|]. split; [reflexivity|].
  split; vm_compute; intros H; apply H; reflexivity.
Qed.

(** *** Retrying *)

Lemma getSimpleCmdLine_reads (preLen : Z) (cmdLine : string) (w : World) :
  snd (getSimpleCmdLine preLen cmdLine w) = w.
Proof.
  unfold getSimpleCmdLine, bind, GetSize, slice, ret.
  destruct (_ >? _); [|reflexivity].
  destruct (sliceTo _ _); reflexivity.
Qed.

Lemma agentRow_reads (wide : bool) (agent : gocCoveredAgent) (w : World) :
  snd (agentRow wide agent w) = w.
Proof.
  unfold agentRow. destruct wide; [reflexivity|].
  unfold bind.
  pose proof (getSimpleCmdLine_reads
                (addInt (addInt (len (Id agent)) (len (RemoteIP agent))) 9)
                (CmdLine agent) w) as H.
  destruct (getSimpleCmdLine _ _ w) as [[shown|code|msg] w']; exact H.
Qed.

Lemma appendRows_reads (wide : bool) (items : list gocCoveredAgent)
      (table : Table) (w : World) :
  snd (appendRows wide items table w) = w.
Proof.
  revert table. induction items as [|agent rest IH]; intros table;
    [reflexivity|].
  cbn [appendRows]. unfold bind.
  pose proof (agentRow_reads wide agent w) as H.
  destruct (agentRow wide agent w) as [[row|code|msg] w']; simpl in H;
    subst w'; [apply IH | reflexivity | reflexivity].
Qed.

Lemma present_attempts (Unmarshal : string -> gocListAgents * option error)
      (wide : bool) (r : option Response * option string * option error)
      (w : World) :
  attempts (snd (present Unmarshal wide r w)) = attempts w.
Proof.
  destruct r as [[res body] [err|]]; [reflexivity|].
  unfold present. destruct (Unmarshal _) as [agents [err|]]; [reflexivity|].
  unfold bind.
  match goal with
  | |- context [appendRows wide ?items ?t w] =>
      pose proof (appendRows_reads wide items t w) as H;
      destruct (appendRows wide items t w) as [[table|code|msg] w']
  end; simpl in H; subst w'; reflexivity.
Qed.

(** C8, as the code has it: [ListAgents] makes the GET exchange once or
    twice.  It makes it a second time exactly when the first one failed
    with an error that [isNetworkError] accepts ([io.EOF] or a
    [net.Error]); the step that failed plays no part.  So a failure with
    any other error is not tried again, whether it came from building the
    request, from the round trip or from reading the body, and a body that
    arrived is never fetched again, whether it decodes or not. *)
Theorem ListAgents_retry
        (Unmarshal : string -> gocListAgents * option error)
        (c : client) (wide : bool) (w : World) :
  exists n : nat,
    attempts (snd (ListAgents Unmarshal c wide w))
      = (attempts w ++ repeat (get c) n)%list
    /\ (n = 1 \/ n = 2)%nat
    /\ (n = 2%nat <->
        exists err, failure (answers w (List.length (attempts w))) = Some err
                    /\ isNetworkError err = true)
    /\ (forall err,
          failure (answers w (List.length (attempts w))) = Some err ->
          isNetworkError err = false -> n = 1%nat)
    /\ (forall res body,
          answers w (List.length (attempts w)) = Responds res body ->
          n = 1%nat).
Proof.
  rewrite ListAgents_fetches, present_attempts.
  destruct (failure (answers w (List.length (attempts w))))
    as [err|] eqn:F.
  - destruct (isNetworkError err) eqn:N.
    + exists 2%nat. repeat split; auto.
      * exists err. now split.
      * intros err' H' N'. congruence.
      * intros res body H'. rewrite H' in F. discriminate F.
    + exists 1%nat. repeat split; auto; try discriminate.
      intros [err' [H' N']]. congruence.
  - exists 1%nat. repeat split; auto; try discriminate.
    intros [err' [H' N']]. discriminate H'.
Qed.

(** C8 as stated fails: a body that cannot be read because the connection
    was reset is a body-read failure, its error is a [net.Error], and the
    GET exchange is made a second time. *)
Lemma body_read_failure_retried :
  answers resetWhileReading 0 =
    ReadAllFails (mkResponse 200) (NetError "read: connection reset by peer")
  /\ attempts (snd (ListAgents decodeAgent1
                               (mkClient "http://127.0.0.1:7777") false
                               resetWhileReading))
     = [get (mkClient "http://127.0.0.1:7777");
        get (mkClient "http://127.0.0.1:7777")].
Proof. split; reflexivity. Qed.

End client_spec.

(** ** Package [build]: further properties of path resolution *)

Module build_extra.
Import golib paths golib_facts build build_terms.

Lemma IsAbs_Clean (path : string) :
  IsAbs path = true -> IsAbs (Clean path) = true.
Proof.
  destruct path as [|c r]; [discriminate|].
  unfold Clean, IsAbs. intros H. now rewrite H.
Qed.

Lemma IsAbs_Join (dir name : string) :
  IsAbs dir = true -> IsAbs (Join [dir; name]) = true.
Proof.
  destruct dir as [|c r]; [discriminate|]. intros H.
  change (Join [String c r; name])
    with (Clean (String c (r ++ "/" ++ name))).
  now apply IsAbs_Clean.
Qed.

Lemma plain_relative (name : string) : plain name = true -> IsAbs name = false.
Proof.
  intros H. apply plain_no_separator in H.
  destruct name as [|c r]; [reflexivity|].
  simpl in H. now apply orb_false_iff in H as [H _].
Qed.

Lemma plain_nonempty (name : string) : plain name = true -> name <> "".
Proof. intros H ->. discriminate H. Qed.

(** X1: once the descriptor is relocated and the working directory is an
    absolute path, path resolution succeeds for every explicit output
    directory, empty or not, absolute or relative, and the path it hands
    back is absolute. *)
Theorem determineOutputDir_absolute
        (b : Build) (w : World) (curWorkingDir outputDir : string) :
  TmpDir b <> "" ->
  getwd w = (curWorkingDir, None) ->
  IsAbs curWorkingDir = true ->
  exists path : string,
    determineOutputDir b outputDir w = (Ret (path, None), w)
    /\ IsAbs path = true.
Proof.
  intros Htmp Hwd Habs.
  rewrite build_spec.determineOutputDir_relocated by assumption.
  rewrite Hwd. destruct (outputDir =? "").
  - eexists. split; [reflexivity | now apply IsAbs_Join].
  - destruct (IsAbs outputDir) eqn:E; eexists; (split; [reflexivity|]).
    + now apply IsAbs_Clean.
    + now apply IsAbs_Join.
Qed.

Lemma determineOutputDir_absolute_witness :
  exists path : string,
    determineOutputDir (relocated true) "../bin" (quiet "/home/u/my_app")
      = (Ret (path, None), quiet "/home/u/my_app")
    /\ IsAbs path = true.
Proof.
  refine (determineOutputDir_absolute (relocated true)
            (quiet "/home/u/my_app") "/home/u/my_app" "../bin"
            _ eq_refl eq_refl).
  discriminate.
Defined.

(** X2: an explicit output directory is resolved without regard to the
    descriptor: two relocated descriptors, whatever their layout, get the
    same path, which is the cleaned directory when it is absolute and the
    working directory joined with it otherwise; a plain name [out] under a
    clean working directory [/e1/../en] gives [/e1/../en/out]. *)
Theorem determineOutputDir_explicit
        (b b' : Build) (w : World) (curWorkingDir outputDir : string) :
  TmpDir b <> "" ->
  TmpDir b' <> "" ->
  getwd w = (curWorkingDir, None) ->
  outputDir <> "" ->
  determineOutputDir b outputDir w = determineOutputDir b' outputDir w
  /\ determineOutputDir b outputDir w =
       (Ret (if IsAbs outputDir then Clean outputDir
             else Join [curWorkingDir; outputDir], None), w)
  /\ (forall es : list string,
         Forall (fun e => plain e = true) (es ++ [outputDir]) ->
         curWorkingDir = absPath es ->
         determineOutputDir b outputDir w =
           (Ret (absPath (es ++ [outputDir]), None), w)).
Proof.
  intros Htmp Htmp' Hwd Hout. apply String.eqb_neq in Hout.
  assert (E : forall d, TmpDir d <> "" ->
              determineOutputDir d outputDir w =
              (Ret (if IsAbs outputDir then Clean outputDir
                    else Join [curWorkingDir; outputDir], None), w)).
  { intros d Hd. rewrite build_spec.determineOutputDir_relocated by assumption.
    rewrite Hwd, Hout. now destruct (IsAbs outputDir). }
  split; [now rewrite (E b), (E b')|]. split; [now apply E|].
  intros es Hplain ->. rewrite (E b Htmp).
  apply Forall_app in Hplain as [Hes Hname].
  inversion Hname as [|? ? Hn _]; subst.
  rewrite (plain_relative _ Hn). now rewrite Join_absPath.
Qed.

Lemma determineOutputDir_explicit_witness :
  determineOutputDir (relocated true) "out" (quiet "/home/u/my_app")
    = determineOutputDir (relocated false) "out" (quiet "/home/u/my_app")
  /\ determineOutputDir (relocated true) "out" (quiet "/home/u/my_app")
     = (Ret ("/home/u/my_app/out", None), quiet "/home/u/my_app").
Proof.
  assert (T : forall isMod, TmpDir (relocated isMod) <> "")
    by (intros isMod; discriminate).
  assert (O : "out" <> "") by discriminate.
  pose proof (determineOutputDir_explicit
                (relocated true) (relocated false) (quiet "/home/u/my_app")
                "/home/u/my_app" "out" (T true) (T false) eq_refl O)
    as [H1 [_ H3]].
  split; [exact H1|].
  refine (H3 ["home"; "u"; "my_app"] _ eq_refl). repeat constructor.
Defined.

(** X3: when the working directory cannot be obtained, path resolution of
    a relocated descriptor fails for every output directory, an absolute
    explicit one included: the path is empty, the error wraps the error of
    [os.Getwd], and one error line is logged. *)
Theorem determineOutputDir_without_cwd
        (b : Build) (w : World) (outputDir unused : string) (e : error) :
  TmpDir b <> "" ->
  getwd w = (unused, Some e) ->
  exists err : error,
    determineOutputDir b outputDir w =
      (Ret ("", Some err),
       addLog (mkLog ErrorLevel "Cannot get current working directory: %v"
                     [LErr e]) w)
    /\ cause err = cause e.
Proof.
  intros Htmp Hwd.
  rewrite build_spec.determineOutputDir_relocated by assumption.
  rewrite Hwd. eexists. split; reflexivity.
Qed.

Lemma determineOutputDir_without_cwd_witness :
  exists err : error,
    determineOutputDir (relocated false) "/out" lost =
      (Ret ("", Some err),
       addLog (mkLog ErrorLevel "Cannot get current working directory: %v"
                     [LErr (OSError "getwd: no such file or directory")])
              lost)
    /\ cause err = OSError "getwd: no such file or directory".
Proof.
  refine (determineOutputDir_without_cwd (relocated false) lost "/out" ""
            (OSError "getwd: no such file or directory") _ eq_refl).
  discriminate.
Defined.

Lemma determineOutputDir_returns (b : Build) (outputDir : string) (w : World) :
  exists r w1, determineOutputDir b outputDir w = (Ret r, w1)
               /\ (snd r = None \/ fst r = "").
Proof.
  destruct (String.eqb_spec (TmpDir b) "") as [E | E].
  - unfold determineOutputDir. rewrite E. do 2 eexists.
    split; [reflexivity | now right].
  - rewrite build_spec.determineOutputDir_relocated by assumption.
    destruct (getwd w) as [wd [err|]].
    + do 2 eexists. split; [reflexivity | now right].
    + destruct (outputDir =? ""); [|destruct (IsAbs outputDir)];
        do 2 eexists; (split; [reflexivity | now left]).
Qed.

(** X4: whatever the relocation does, [NewBuild] never hands back a
    descriptor together with an error, nor neither of them: when it returns,
    exactly one of the two is there, and a descriptor handed back has the
    fields the relocation left, but for [Target]. *)
Theorem NewBuild_descriptor_or_error
        (MvProjectsToTmp : Build -> M Build)
        (buildflags packages outputDir : string) (w w1 : World)
        (ob : option Build) (oe : option error) :
  NewBuild MvProjectsToTmp buildflags packages outputDir w
    = (Ret (ob, oe), w1) ->
  (ob = None /\ oe <> None)
  \/ (oe = None
      /\ exists b1 w0 path,
           MvProjectsToTmp (fresh buildflags packages) w = (Ret b1, w0)
           /\ ob = Some (setTarget path b1)).
Proof.
  unfold NewBuild. fold (fresh buildflags packages).
  destruct (negb (validatePackageForBuild (fresh buildflags packages))).
  - intros H. injection H as <- <- _. left. split; [reflexivity|discriminate].
  - unfold bind at 1.
    destruct (MvProjectsToTmp (fresh buildflags packages) w)
      as [[b1|code|msg] w0] eqn:Emv; try discriminate.
    unfold bind at 1.
    destruct (determineOutputDir_returns b1 outputDir w0)
      as [[path [err|]] [w2 [E _]]]; rewrite E; cbn [fst snd]; unfold ret;
      intros H; injection H as <- <- _.
    + left. split; [reflexivity|discriminate].
    + right. split; [reflexivity|]. now exists b1, w0, path.
Qed.

Lemma NewBuild_descriptor_or_error_witness :
  exists b1 w0 path,
    relocateAs false (fresh "-v" ".") (quiet "/R/src/myapp") = (Ret b1, w0)
    /\ Some (setTarget "/R/src/myapp/myapp"
               (mkBuild [] "" "" "/tmp/goc-build-1" "/tmp/goc-build-1"
                        false "" "" "-v" "." "" ""))
       = Some (setTarget path b1).
Proof.
  destruct (NewBuild_descriptor_or_error (relocateAs false) "-v" "." ""
              (quiet "/R/src/myapp") (quiet "/R/src/myapp") _ _ eq_refl)
    as [[H _] | [_ H]]; [discriminate H | exact H].
Defined.

(** X5: [NewBuild] hands back no descriptor when the path cannot be
    resolved after the relocation returned: when the relocation left
    [TmpDir] empty the error wraps [ErrWrongCallSequence], and when the
    working directory cannot be obtained it wraps the error of
    [os.Getwd]. *)
Theorem NewBuild_unresolved
        (MvProjectsToTmp : Build -> M Build)
        (buildflags outputDir : string) (w w1 : World) (b1 : Build) :
  MvProjectsToTmp (fresh buildflags ".") w = (Ret b1, w1) ->
  (TmpDir b1 = "" ->
   exists err,
     fst (NewBuild MvProjectsToTmp buildflags "." outputDir w)
       = Ret (None, Some err)
     /\ cause err = ErrWrongCallSequence)
  /\ (forall unused e,
        TmpDir b1 <> "" -> getwd w1 = (unused, Some e) ->
        exists err,
          fst (NewBuild MvProjectsToTmp buildflags "." outputDir w)
            = Ret (None, Some err)
          /\ cause err = cause e).
Proof.
  intros Hmv.
  assert (E : NewBuild MvProjectsToTmp buildflags "." outputDir w =
              (r <- determineOutputDir b1 outputDir ;;
               match snd r with
               | Some err => ret (None, Some err)
               | None => ret (Some (setTarget (fst r) b1), None)
               end) w1).
  { rewrite build_spec.NewBuild_dot. unfold bind at 1. now rewrite Hmv. }
  rewrite E. unfold bind. split.
  - intros Htmp. unfold determineOutputDir. rewrite Htmp.
    eexists. split; reflexivity.
  - intros unused e Htmp Hwd.
    rewrite build_spec.determineOutputDir_relocated by assumption.
    rewrite Hwd. eexists. split; reflexivity.
Qed.

Lemma NewBuild_unresolved_witness :
  (exists err,
      fst (NewBuild (fun b => ret b) "-v" "." "" (quiet "/R/src/myapp"))
        = Ret (None, Some err)
      /\ cause err = ErrWrongCallSequence)
  /\ (exists err,
        fst (NewBuild (relocateAs false) "-v" "." "/out" lost)
          = Ret (None, Some err)
        /\ cause err = OSError "getwd: no such file or directory").
Proof.
  split.
  - exact (proj1 (NewBuild_unresolved (fun b => ret b) "-v" ""
                    (quiet "/R/src/myapp") (quiet "/R/src/myapp") _ eq_refl)
                 eq_refl).
  - refine (proj2 (NewBuild_unresolved (relocateAs false) "-v" "/out"
                     lost lost _ eq_refl)
                  "" (OSError "getwd: no such file or directory") _ eq_refl).
    discriminate.
Defined.

End build_extra.

(** ** Package [build]: further properties of the invocations *)

Module invoke_extra.
Import golib paths golib_facts build build_terms.

Lemma setBuildFlags_again (f g : string) (b : Build) :
  setBuildFlags g (setBuildFlags f b) = setBuildFlags g b.
Proof. reflexivity. Qed.

Lemma buildTimes_accumulates (n : nat) :
  forall (b : Build) (w : World),
  exists w1 : World,
    buildTimes n b w =
      (Ret (setBuildFlags (BuildFlags b ++ outputFlags n (Target b)) b), w1)
    /\ List.length (started w1) = List.length (started w) + n.
Proof.
  induction n as [|k IH]; intros b w.
  - exists w. split; [|now rewrite Nat.add_0_r].
    cbn [buildTimes outputFlags]. rewrite append_nil_r. now destruct b.
  - destruct (invoke_spec.Build_Build_runs b w) as [w1 [E [S _]]].
    destruct (IH (setBuildFlags (BuildFlags b ++ " -o " ++ Target b) b) w1)
      as [w2 [E2 S2]].
    exists w2. cbn [buildTimes]. unfold bind at 1. rewrite E. cbn [fst].
    rewrite E2. split.
    + cbn [BuildFlags Target setBuildFlags outputFlags].
      now rewrite !append_assoc.
    + rewrite S2, S, length_app. cbn [List.length]. lia.
Qed.

Lemma outputFlags_length (n : nat) (target : string) :
  String.length (outputFlags n target) = n * (4 + String.length target).
Proof.
  induction n as [|k IH]; [reflexivity|].
  cbn [outputFlags]. rewrite !length_append, IH. simpl String.length. lia.
Qed.

(** X6: [n] calls of [Build] on one descriptor leave it with [n] copies of
    the output flag behind the original flags and change no other field;
    the flags grow by [4 + len(Target)] bytes with every call, and every
    call hands one command to [Start]. *)
Theorem Build_accumulates (n : nat) (b : Build) (w : World) :
  exists (b' : Build) (w1 : World),
    buildTimes n b w = (Ret b', w1)
    /\ BuildFlags b' = BuildFlags b ++ outputFlags n (Target b)
    /\ b' = setBuildFlags (BuildFlags b') b
    /\ String.length (BuildFlags b')
       = String.length (BuildFlags b) + n * (4 + String.length (Target b))
    /\ List.length (started w1) = List.length (started w) + n.
Proof.
  destruct (buildTimes_accumulates n b w) as [w1 [E S]].
  do 2 eexists. split; [exact E|]. split; [reflexivity|].
  split; [reflexivity|]. split; [|exact S].
  cbn [BuildFlags setBuildFlags].
  now rewrite length_append, outputFlags_length.
Qed.

(** X7: a [Run] that follows a [Build] on the same descriptor passes the
    output flag that [Build] appended on to [go run]: its command line is
    [go run <flags> -o <target> <exec flag> <package> <arguments>]. *)
Theorem Run_after_Build (b : Build) (w : World) :
  exists (b1 : Build) (e : option error) (w1 : World)
         (out : Outcome unit) (w2 : World) (cmdB cmdR : Cmd),
    Build_Build b w = (Ret (b1, e), w1)
    /\ Run b1 w1 = (out, w2)
    /\ started w2 = (started w ++ [cmdB; cmdR])%list
    /\ Args cmdR =
         ["/bin/bash"; "-c";
          "go run " ++ (BuildFlags b ++ " -o " ++ Target b) ++ " "
                    ++ GoRunExecFlag b ++ " " ++ Packages b ++ " "
                    ++ GoRunArguments b].
Proof.
  destruct (invoke_spec.Build_Build_runs b w) as [w1 [E [S _]]].
  destruct (invoke_spec.Run_runs
              (setBuildFlags (BuildFlags b ++ " -o " ++ Target b) b) w1)
    as [w2 [E2 [S2 _]]].
  do 7 eexists. split; [exact E|]. split; [exact E2|].
  split.
  - rewrite S2, S. now rewrite <- app_assoc.
  - reflexivity.
Qed.

(** X8: [Build] and [Run] each hand exactly one command to [Start] per
    call, whatever becomes of it: [/bin/bash -c <line>], run in
    [TmpWorkingDir] with the standard output and standard error of the
    calling process. *)
Theorem commands_run_in_workspace (b : Build) (w : World) :
  (exists cmd line,
      started (snd (Build_Build b w)) = (started w ++ [cmd])%list
      /\ Path cmd = "/bin/bash"
      /\ Args cmd = ["/bin/bash"; "-c"; line]
      /\ Dir cmd = TmpWorkingDir b
      /\ Stdout cmd = OsStdout /\ Stderr cmd = OsStderr)
  /\ (exists cmd line,
        started (snd (Run b w)) = (started w ++ [cmd])%list
        /\ Path cmd = "/bin/bash"
        /\ Args cmd = ["/bin/bash"; "-c"; line]
        /\ Dir cmd = TmpWorkingDir b
        /\ Stdout cmd = OsStdout /\ Stderr cmd = OsStderr).
Proof.
  split.
  - destruct (invoke_spec.Build_Build_runs b w) as [w1 [E [S _]]].
    rewrite E. exists (buildCmd b w). eexists.
    split; [exact S|]. repeat split.
  - destruct (invoke_spec.Run_runs b w) as [w1 [E [S _]]].
    rewrite E. exists (runCmd b w). eexists.
    split; [exact S|]. repeat split.
Qed.

(** X9: [Build] tells success exactly when its command both started and
    exited well.  It logs three lines: the announcement, the command line,
    and a last line that is the success message when it tells success and
    an error-level line otherwise. *)
Theorem Build_success (b : Build) (w : World) :
  exists (b1 : Build) (e : option error) (w1 : World) (cmd : Cmd)
         (last : logEntry),
    Build_Build b w = (Ret (b1, e), w1)
    /\ started w1 = (started w ++ [cmd])%list
    /\ (e = None <-> startAnswer w cmd = None /\ waitAnswer w cmd = None)
    /\ logs w1 =
         (logs w ++ [mkLog InfoLevel "Go building in temp..." [];
                     mkLog InfoLevel "go build cmd is: %v"
                           [LArg (AStrs (Args cmd))];
                     last])%list
    /\ (e = None -> last = mkLog InfoLevel "Go build exit successful." [])
    /\ (e <> None -> entryLevel last = ErrorLevel).
Proof.
  unfold Build_Build, withGOPATH.
  unfold bind, logf, Start, Wait, Environ, ret, Command.
  cbn [BuildFlags setBuildFlags NewGOPATH Target Packages TmpWorkingDir
       Path Args Dir Env Stdout Stderr].
  destruct (NewGOPATH b =? "");
    cbv [startAnswer waitAnswer addLog addStarted environ started getwd logs
         Path Args Dir Env Stdout Stderr];
    destruct w as [env wd sa wa st lg];
    match goal with
    | |- context [sa ?c] =>
        destruct (sa c) eqn:Es; [|destruct (wa c) eqn:Ew]
    end;
    do 5 eexists;
    (split; [reflexivity|]); (split; [reflexivity|]);
    rewrite ?Es, ?Ew, <- ?app_assoc;
    (split; [split; [try discriminate; auto | intros [? ?]; congruence]|]);
    (split; [reflexivity|]);
    (split; [try discriminate; auto | try reflexivity; congruence]).
Qed.

End invoke_extra.

(** ** Package [client]: further properties of the listing *)

Module client_extra.
Import golib paths golib_facts client client_terms.
Open Scope Z_scope.

Lemma appendRows_wide (items : list gocCoveredAgent) (table : Table)
      (w : World) :
  appendRows true items table w =
    (Ret (setRows table (rows table ++ map wideRow items)%list), w).
Proof.
  revert table. induction items as [|agent rest IH]; intros table.
  - simpl. rewrite app_nil_r. now destruct table.
  - cbn [appendRows]. unfold bind at 1. cbn [agentRow]. unfold ret at 1.
    rewrite IH. unfold setRows, Append. cbn [rows map].
    now rewrite <- app_assoc.
Qed.

(** X10: in wide mode, when the listing arrives and decodes, [ListAgents]
    returns normally whatever the terminal and however long the fields: it
    renders one table with the five-column header and one row per agent, in
    the order of the listing, holding id, remote address, host name, pid
    and the whole command line. *)
Theorem wide_rows_complete
        (Unmarshal : string -> gocListAgents * option error)
        (c : client) (w : World) (res : Response) (body : string)
        (agents : gocListAgents) :
  lastExchange w = Responds res body ->
  Unmarshal body = (agents, None) ->
  exists (w1 : World) (table : Table),
    ListAgents Unmarshal c true w = (Ret tt, w1)
    /\ stdout w1 = (stdout w ++ [table])%list
    /\ header table = ["ID"; "REMOTEIP"; "HOSTNAME"; "PID"; "CMD"]
    /\ rows table = map wideRow (Items agents).
Proof.
  intros Hlast Hbody.
  rewrite client_spec.ListAgents_fetches, Hlast. unfold results, present.
  rewrite Hbody. unfold bind at 1. rewrite appendRows_wide.
  unfold Render. do 2 eexists. split; [reflexivity|].
  cbn [stdout header rows setRows afterGets app]. repeat split.
Qed.

Lemma wide_rows_complete_witness :
  exists (w1 : World) (table : Table),
    ListAgents decodeAgent1 (mkClient "http://127.0.0.1:7777") true
               (terminal (Some (12, 24))) = (Ret tt, w1)
    /\ stdout w1 = [table]
    /\ header table = ["ID"; "REMOTEIP"; "HOSTNAME"; "PID"; "CMD"]
    /\ rows table
       = [["1"; "10.0.0.1"; "h1"; "99"; "/bin/foo --flag=verylongvalue"]].
Proof.
  exact (wide_rows_complete decodeAgent1 (mkClient "http://127.0.0.1:7777")
           (terminal (Some (12, 24))) (mkResponse 200) "{}"
           (mkList [agent1]) eq_refl eq_refl).
Defined.

(** X11: when the exchange [ListAgents] goes on with has failed, the first
    one with an error that is not retried or the second one with any error,
    the process is ended by [log.Fatalf], with the status that function
    exits with, and no table is rendered.  [log.Fatalf] is called once: its
    format string is the text of the error [goc list failed: <err>], [err]
    being the error of that last exchange, and it gets no operands. *)
Theorem ListAgents_gives_up
        (Unmarshal : string -> gocListAgents * option error)
        (c : client) (wide : bool) (w : World) (err : error) :
  failure (lastExchange w) = Some err ->
  exists w1 : World,
    ListAgents Unmarshal c wide w = (Exit (fatalStatus w), w1)
    /\ stdout w1 = stdout w
    /\ fatal w1 =
       (fatal w ++
        [mkFatal (ErrorText (Errorf "goc list failed: %v" err)) []])%list.
Proof.
  intros Hfail. rewrite client_spec.ListAgents_fetches.
  pose proof (client_spec.results_failure (lastExchange w)) as H.
  rewrite Hfail in H.
  destruct (results (lastExchange w)) as [[res body] e]. simpl in H. subst e.
  eexists. split; [reflexivity|]. split; reflexivity.
Qed.

Lemma ListAgents_gives_up_witness :
  exists w1 : World,
    ListAgents decodeAgent1 (mkClient "http://127.0.0.1:7777") false
               unreachable = (Exit 3, w1)
    /\ stdout w1 = []
    /\ fatal w1 =
       [mkFatal (ErrorText (Errorf "goc list failed: %v"
                                   (NetError "dial tcp: connection refused")))
                []].
Proof.
  exact (ListAgents_gives_up decodeAgent1 (mkClient "http://127.0.0.1:7777")
           false unreachable (NetError "dial tcp: connection refused")
           eq_refl).
Defined.

(** X12: when the body arrives but does not decode, the process is ended
    by [log.Fatalf], with the status that function exits with, and no table
    is rendered.  [log.Fatalf] is called once: its format string is the text
    of the error [goc list failed: json unmarshal failed: <err>], [err]
    being the decoder's error, and it gets no operands. *)
Theorem ListAgents_undecodable
        (Unmarshal : string -> gocListAgents * option error)
        (c : client) (wide : bool) (w : World) (res : Response)
        (body : string) (partial : gocListAgents) (err : error) :
  lastExchange w = Responds res body ->
  Unmarshal body = (partial, Some err) ->
  exists w1 : World,
    ListAgents Unmarshal c wide w = (Exit (fatalStatus w), w1)
    /\ stdout w1 = stdout w
    /\ fatal w1 =
       (fatal w ++
        [mkFatal (ErrorText
                    (Errorf "goc list failed: json unmarshal failed: %v" err))
                 []])%list.
Proof.
  intros Hlast Hbody. rewrite client_spec.ListAgents_fetches, Hlast.
  unfold results, present. rewrite Hbody.
  eexists. split; [reflexivity|]. split; reflexivity.
Qed.

Lemma ListAgents_undecodable_witness :
  exists w1 : World,
    ListAgents decodeNothing (mkClient "http://127.0.0.1:7777") true
               (terminal None) = (Exit 1, w1)
    /\ stdout w1 = []
    /\ fatal w1 =
       [mkFatal (ErrorText
                   (Errorf "goc list failed: json unmarshal failed: %v"
                           (OtherError "unexpected end of JSON input")))
                []].
Proof.
  exact (ListAgents_undecodable decodeNothing
           (mkClient "http://127.0.0.1:7777") true (terminal None)
           (mkResponse 200) "{}" (mkList [])
           (OtherError "unexpected end of JSON input") eq_refl eq_refl).
Defined.

Lemma getSimpleCmdLine_outcome (preLen : Z) (cmdLine : string) (w : World) :
  (exists shown, getSimpleCmdLine preLen cmdLine w = (Ret shown, w))
  \/ (exists msg, getSimpleCmdLine preLen cmdLine w = (Panic msg, w)).
Proof.
  unfold getSimpleCmdLine, bind, GetSize, slice, ret.
  destruct (_ >? _); [|left; eexists; reflexivity].
  destruct (sliceTo _ _); [left | right]; eexists; reflexivity.
Qed.

Lemma appendRows_outcome (wide : bool) (items : list gocCoveredAgent)
      (table : Table) (w : World) :
  (exists t, appendRows wide items table w = (Ret t, w))
  \/ (exists msg, wide = false
                  /\ appendRows wide items table w = (Panic msg, w)).
Proof.
  destruct wide.
  - left. rewrite appendRows_wide. eexists. reflexivity.
  - revert table. induction items as [|agent rest IH]; intros table.
    + left. eexists. reflexivity.
    + cbn [appendRows]. unfold bind at 1. unfold agentRow, bind.
      destruct (getSimpleCmdLine_outcome
                  (addInt (addInt (len (Id agent)) (len (RemoteIP agent))) 9)
                  (CmdLine agent) w) as [[shown E] | [msg E]]; rewrite E.
      * unfold ret at 1. apply IH.
      * right. exists msg. now split.
Qed.

(** X13: one call of [ListAgents] ends in one of three ways.  It returns,
    having rendered exactly one table and never called [log.Fatalf]; or the
    process is ended by exactly one call of [log.Fatalf], with the status
    that function exits with and nothing rendered; or, in narrow mode only,
    it panics with nothing rendered and [log.Fatalf] never called. *)
Theorem ListAgents_ends
        (Unmarshal : string -> gocListAgents * option error)
        (c : client) (wide : bool) (w : World) :
  (exists w1 table,
      ListAgents Unmarshal c wide w = (Ret tt, w1)
      /\ stdout w1 = (stdout w ++ [table])%list /\ fatal w1 = fatal w)
  \/ (exists w1 call,
        ListAgents Unmarshal c wide w = (Exit (fatalStatus w), w1)
        /\ stdout w1 = stdout w /\ fatal w1 = (fatal w ++ [call])%list)
  \/ (exists w1 msg,
        ListAgents Unmarshal c wide w = (Panic msg, w1)
        /\ wide = false
        /\ stdout w1 = stdout w /\ fatal w1 = fatal w).
Proof.
  rewrite client_spec.ListAgents_fetches.
  destruct (results (lastExchange w)) as [[res body] [err|]].
  - right. left. do 2 eexists. split; [reflexivity|]. split; reflexivity.
  - unfold present.
    destruct (Unmarshal _) as [agents [err|]].
    + right. left. do 2 eexists. split; [reflexivity|]. split; reflexivity.
    + unfold bind.
      match goal with
      | |- context [appendRows wide ?items ?t ?w0] =>
          destruct (appendRows_outcome wide items t w0)
            as [[t' E] | [msg [Hw E]]]; rewrite E
      end.
      * left. do 2 eexists. split; [reflexivity|]. split; reflexivity.
      * right. right. do 2 eexists. split; [reflexivity|].
        split; [exact Hw|]. split; reflexivity.
Qed.

Lemma clip_without_terminal (preLen : Z) :
  subInt (addInt 16 preLen) preLen = 16.
Proof.
  unfold subInt, addInt, wrapInt, minInt.
  replace ((16 + preLen - -9223372036854775808) mod 18446744073709551616
           + -9223372036854775808 - preLen - -9223372036854775808)
    with ((16 + preLen - -9223372036854775808) mod 18446744073709551616
          - preLen) by lia.
  rewrite Zminus_mod_idemp_l.
  replace (16 + preLen - -9223372036854775808 - preLen)
    with 9223372036854775824 by lia.
  reflexivity.
Qed.

(** X14: when the size of the terminal cannot be obtained, the clipping
    function returns the first 16 bytes of the command line, or all of it
    when it is shorter, for every prefix length whatsoever: the sum that
    may wrap is undone by the difference taken afterwards, so there is no
    panic even at the largest prefix lengths. *)
Theorem getSimpleCmdLine_no_terminal
        (preLen : Z) (cmdLine : string) (w : World) :
  termSize w = None ->
  getSimpleCmdLine preLen cmdLine w = (Ret (firstn_string 16 cmdLine), w)
  /\ len (firstn_string 16 cmdLine) = Z.min 16 (len cmdLine).
Proof.
  intros Hsize. split.
  - unfold getSimpleCmdLine, bind, GetSize. rewrite Hsize.
    rewrite clip_without_terminal.
    destruct (Z.gtb_spec (len cmdLine) 16) as [Hlong | Hshort].
    + unfold slice, sliceTo.
      replace (16 <=? len cmdLine) with true
        by (symmetry; apply Z.leb_le; lia).
      reflexivity.
    + unfold ret. rewrite client_spec.firstn_string_all; [reflexivity|].
      unfold len in Hshort. lia.
  - unfold len. rewrite client_spec.firstn_string_length. lia.
Qed.

Lemma getSimpleCmdLine_no_terminal_witness :
  getSimpleCmdLine 9223372036854775800 "/bin/foo --flag=verylongvalue"
                   (terminal None)
    = (Ret "/bin/foo --flag=", terminal None)
  /\ len "/bin/foo --flag=" = Z.min 16 (len "/bin/foo --flag=verylongvalue").
Proof.
  exact (getSimpleCmdLine_no_terminal 9223372036854775800
           "/bin/foo --flag=verylongvalue" (terminal None) eq_refl).
Defined.

Lemma firstn_string_le (m n : nat) (s : string) :
  (m <= n)%nat -> prefix (firstn_string m s) (firstn_string n s) = true.
Proof.
  revert m n. induction s as [|c r IH]; intros [|m] [|n] H; simpl;
    try reflexivity; try lia.
  destruct (ascii_dec c c); [apply IH; lia | congruence].
Qed.

Lemma clipWidth_monotone (a b ha hb preLen : Z) :
  a <= b ->
  clipWidth (Some (a, ha)) preLen <= clipWidth (Some (b, hb)) preLen.
Proof.
  unfold clipWidth. intros H.
  destruct (Z.leb_spec a (preLen + 16)), (Z.leb_spec b (preLen + 16)); lia.
Qed.

(** X15: what the clipping function lets through is stable: clipping its
    own result again, with the same prefix length on the same terminal,
    gives that result back. *)
Theorem getSimpleCmdLine_idempotent
        (preLen : Z) (cmdLine : string) (w : World) :
  0 <= preLen <= maxInt - 16 ->
  sizeIsInt w ->
  exists shown : string,
    getSimpleCmdLine preLen cmdLine w = (Ret shown, w)
    /\ getSimpleCmdLine preLen shown w = (Ret shown, w).
Proof.
  intros Hpre Hsize. eexists. split.
  - now apply client_spec.getSimpleCmdLine_clips.
  - rewrite client_spec.getSimpleCmdLine_clips by assumption.
    rewrite client_spec.firstn_string_all; [reflexivity|].
    rewrite client_spec.firstn_string_length. lia.
Qed.

Lemma getSimpleCmdLine_idempotent_witness :
  exists shown : string,
    getSimpleCmdLine 18 "/bin/foo --flag=verylongvalue"
                     (terminal (Some (40, 24)))
      = (Ret shown, terminal (Some (40, 24)))
    /\ getSimpleCmdLine 18 shown (terminal (Some (40, 24)))
       = (Ret shown, terminal (Some (40, 24))).
Proof.
  apply (getSimpleCmdLine_idempotent 18 "/bin/foo --flag=verylongvalue"
                                     (terminal (Some (40, 24)))).
  - unfold maxInt. lia.
  - intros width height E. injection E as <- <-.
    unfold isInt, minInt, maxInt. lia.
Defined.

(** X16: a wider terminal never shows less of a command line: of two
    detected widths the smaller one lets through a prefix of what the
    larger one lets through. *)
Theorem wider_terminal_shows_more
        (preLen : Z) (cmdLine : string) (w1 w2 : World)
        (a ha b hb : Z) :
  0 <= preLen <= maxInt - 16 ->
  termSize w1 = Some (a, ha) ->
  termSize w2 = Some (b, hb) ->
  isInt a -> isInt b ->
  a <= b ->
  exists s1 s2 : string,
    getSimpleCmdLine preLen cmdLine w1 = (Ret s1, w1)
    /\ getSimpleCmdLine preLen cmdLine w2 = (Ret s2, w2)
    /\ prefix s1 s2 = true.
Proof.
  intros Hpre H1 H2 Ha Hb Hab.
  assert (S1 : sizeIsInt w1).
  { intros width height E. rewrite H1 in E. now injection E as <- <-. }
  assert (S2 : sizeIsInt w2).
  { intros width height E. rewrite H2 in E. now injection E as <- <-. }
  do 2 eexists.
  split; [now apply client_spec.getSimpleCmdLine_clips|].
  split; [now apply client_spec.getSimpleCmdLine_clips|].
  rewrite H1, H2. apply firstn_string_le.
  pose proof (clipWidth_monotone a b ha hb preLen Hab). lia.
Qed.

Lemma wider_terminal_shows_more_witness :
  exists s1 s2 : string,
    getSimpleCmdLine 18 "/bin/foo --flag=verylongvalue"
                     (terminal (Some (12, 24)))
      = (Ret s1, terminal (Some (12, 24)))
    /\ getSimpleCmdLine 18 "/bin/foo --flag=verylongvalue"
                        (terminal (Some (40, 24)))
       = (Ret s2, terminal (Some (40, 24)))
    /\ prefix s1 s2 = true.
Proof.
  apply (wider_terminal_shows_more 18 "/bin/foo --flag=verylongvalue"
           (terminal (Some (12, 24))) (terminal (Some (40, 24)))
           12 24 40 24); try reflexivity;
    unfold isInt, minInt, maxInt; lia.
Defined.

(** X17: a worker is only made for a host that [url.ParseRequestURI]
    accepts.  For a host it rejects the process is ended by [log.Fatalf],
    with the status that function exits with, before any request is made;
    the call has the format [parse url %s failed, err: %v] and the host and
    the parse error as operands.  For a host it accepts the listing goes to
    [<host>/v2/rpcagents], the host taken as given, by GET without body or
    content type, once or twice. *)
Theorem listFrom_checks_host
        (ParseRequestURI : string -> option error)
        (Unmarshal : string -> gocListAgents * option error)
        (host : string) (wide : bool) (w : World) :
  (forall e, ParseRequestURI host = Some e ->
     exists w1,
       listFrom ParseRequestURI Unmarshal host wide w
         = (Exit (fatalStatus w), w1)
       /\ attempts w1 = attempts w
       /\ stdout w1 = stdout w
       /\ fatal w1 =
          (fatal w ++
           [mkFatal (Literal "parse url %s failed, err: %v")
                    [OStr host; OErr e]])%list)
  /\ (ParseRequestURI host = None ->
      exists n : nat,
        (n = 1 \/ n = 2)%nat
        /\ attempts (snd (listFrom ParseRequestURI Unmarshal host wide w))
           = (attempts w
              ++ repeat (mkRequest "GET" (host ++ "/v2/rpcagents") None None)
                        n)%list).
Proof.
  unfold listFrom, NewWorker, bind. split.
  - intros e ->. eexists. split; [reflexivity|]. repeat split.
  - intros ->. unfold ret.
    rewrite client_spec.ListAgents_fetches, client_spec.present_attempts.
    cbn [afterGets attempts].
    destruct (failure (answers w (List.length (attempts w)))) as [err|];
      [destruct (isNetworkError err)|];
      eexists; (split; [|reflexivity]); auto.
Qed.

Lemma listFrom_checks_host_witness :
  (exists w1,
      listFrom parseHTTP decodeAgent1 "127.0.0.1:7777" false unreachable
        = (Exit 3, w1)
      /\ attempts w1 = []
      /\ stdout w1 = []
      /\ fatal w1 =
         [mkFatal (Literal "parse url %s failed, err: %v")
                  [OStr "127.0.0.1:7777";
                   OErr (OtherError "invalid URI for request")]])
  /\ (exists n : nat,
        (n = 1 \/ n = 2)%nat
        /\ attempts (snd (listFrom parseHTTP decodeAgent1
                                   "http://127.0.0.1:7777" false
                                   (terminal None)))
           = repeat (mkRequest "GET" "http://127.0.0.1:7777/v2/rpcagents"
                               None None) n).
Proof.
  split.
  - exact (proj1 (listFrom_checks_host parseHTTP decodeAgent1
                    "127.0.0.1:7777" false unreachable)
                 (OtherError "invalid URI for request") eq_refl).
  - exact (proj2 (listFrom_checks_host parseHTTP decodeAgent1
                    "http://127.0.0.1:7777" false (terminal None))
                 eq_refl).
Defined.

End client_extra.
